(** * Verification of [data/download.py] (icrp107_data)

    A shallow embedding of the dataset download script: the checksummed
    fetcher, the zip member extractor, the two NIST scrapers, the two
    dataset assemblers and the command-line selector, followed by the
    theorems that settle the specification's claims about them.

    Modelling conventions.
    - File contents are [list byte]; text (URLs, paths, HTML, table cells)
      is [string]; a character is an [ascii], read as the code point
      0..255.
    - The filesystem is a finite map from paths to nodes (regular file or
      directory); the empty path stands for the working directory.
    - Effects are threaded through a state-and-exception monad over a
      [world]: the filesystem and the log of HTTP requests issued so far.
      An exception leaves the state reached so far in place, as in Python.
    - The remote servers and the zip decoder are parameters of the
      development ([http], [unzip]); SHA-1 is implemented as in FIPS 180,
      on 32-bit words held in [Z]. *)

From Stdlib Require Import ZArith NArith List Lia Bool.
From Stdlib Require Import Strings.String Strings.Ascii Strings.Byte.
From Stdlib Require Import DecimalString.
From stdpp Require Import gmap strings list fin_maps.

Local Open Scope Z_scope.

(** ** SHA-1 ([hashlib.sha1]) *)

Module Sha1.

Definition mask32 (x : Z) : Z := Z.land x 0xFFFFFFFF.

Definition add32 (x y : Z) : Z := mask32 (x + y).

Definition rotl (n x : Z) : Z :=
  mask32 (Z.lor (Z.shiftl x n) (Z.shiftr x (32 - n))).

Definition byte_to_Z (b : byte) : Z := Z.of_N (Byte.to_N b).

Definition Z_to_byte (z : Z) : byte :=
  match Byte.of_N (Z.to_N (Z.land z 0xFF)) with
  | Some b => b
  | None => x00
  end.

(** Big-endian encoding of the low [8 * n] bits of [z] on [n] bytes. *)
Fixpoint be_bytes (n : nat) (z : Z) : list byte :=
  match n with
  | O => []
  | S n' => Z_to_byte (Z.shiftr z (8 * Z.of_nat n')) :: be_bytes n' z
  end.

(** Message padding: a one bit, zero bits up to 56 modulo 64 bytes, and
    the bit length on 64 bits. *)
Definition pad (msg : list byte) : list byte :=
  let len := Z.of_nat (length msg) in
  let k := Z.to_nat ((55 - len) mod 64) in
  msg ++ x80 :: repeat x00 k ++ be_bytes 8 (8 * len).

Fixpoint words (fuel : nat) (bs : list byte) : list Z :=
  match fuel, bs with
  | S f, b0 :: b1 :: b2 :: b3 :: rest =>
      (Z.shiftl (byte_to_Z b0) 24 + Z.shiftl (byte_to_Z b1) 16
       + Z.shiftl (byte_to_Z b2) 8 + byte_to_Z b3) :: words f rest
  | _, _ => []
  end.

(** The message schedule, most recent word first. *)
Fixpoint schedule (n : nat) (rev_w : list Z) : list Z :=
  match n with
  | O => rev_w
  | S n' =>
      let w := rotl 1 (Z.lxor (Z.lxor (nth 2 rev_w 0) (nth 7 rev_w 0))
                              (Z.lxor (nth 13 rev_w 0) (nth 15 rev_w 0))) in
      schedule n' (w :: rev_w)
  end.

Definition state : Type := Z * Z * Z * Z * Z.

Definition round (t : nat) (w : Z) (s : state) : state :=
  let '(a, b, c, d, e) := s in
  let '(f, k) :=
    if (t <? 20)%nat then
      (Z.lor (Z.land b c) (Z.land (Z.lxor b 0xFFFFFFFF) d), 0x5A827999)
    else if (t <? 40)%nat then
      (Z.lxor (Z.lxor b c) d, 0x6ED9EBA1)
    else if (t <? 60)%nat then
      (Z.lor (Z.lor (Z.land b c) (Z.land b d)) (Z.land c d), 0x8F1BBCDC)
    else
      (Z.lxor (Z.lxor b c) d, 0xCA62C1D6) in
  let tmp := add32 (add32 (add32 (add32 (rotl 5 a) f) e) k) w in
  (tmp, a, rotl 30 b, c, d).

Fixpoint rounds (t : nat) (ws : list Z) (s : state) : state :=
  match ws with
  | [] => s
  | w :: ws' => rounds (S t) ws' (round t w s)
  end.

Definition compress (h : state) (block : list byte) : state :=
  let ws := rev (schedule 64 (rev (words 16 block))) in
  let '(h0, h1, h2, h3, h4) := h in
  let '(a, b, c, d, e) := rounds 0 ws h in
  (add32 h0 a, add32 h1 b, add32 h2 c, add32 h3 d, add32 h4 e).

Fixpoint blocks (fuel : nat) (h : state) (bs : list byte) : state :=
  match fuel with
  | O => h
  | S f =>
      match bs with
      | [] => h
      | _ => blocks f (compress h (firstn 64 bs)) (skipn 64 bs)
      end
  end.

Definition init : state :=
  (0x67452301, 0xEFCDAB89, 0x98BADCFE, 0x10325476, 0xC3D2E1F0).

Definition digest (msg : list byte) : list byte :=
  let p := pad msg in
  let '(h0, h1, h2, h3, h4) := blocks (length p) init p in
  be_bytes 4 h0 ++ be_bytes 4 h1 ++ be_bytes 4 h2 ++ be_bytes 4 h3
  ++ be_bytes 4 h4.

Definition hex_digit (n : N) : ascii :=
  if (n <? 10)%N then ascii_of_N (48 + n) else ascii_of_N (87 + n).

Fixpoint hex (bs : list byte) : string :=
  match bs with
  | [] => EmptyString
  | b :: bs' =>
      let n := Byte.to_N b in
      String (hex_digit (n / 16)) (String (hex_digit (n mod 16)) (hex bs'))
  end.

Definition hexdigest (msg : list byte) : string := hex (digest msg).

End Sha1.

(** ** The world: filesystem and network *)

Inductive node : Type :=
| File (content : list byte)
| Dir.

(** The Python exceptions the script can let escape. *)
Inductive exn : Type :=
| FileNotFoundError
| IsADirectoryError
| NotADirectoryError
| FileExistsError
| ConnectionError
| BadZipFile
| KeyError
| EOFError
| AttributeError
| IndexError
| SystemExit (code : Z).

(** A call [requests.get(url, headers=..., stream=..., verify=...)]:
    [req_range] is the byte position of the [Range: bytes=<pos>-] header
    when there is one. *)
Record request : Type := mk_request {
  req_url : string;
  req_range : option nat;
  req_stream : bool;
  req_verify : bool
}.

(** What the server answers (after redirects): [resp_content] is the body
    as bytes, [resp_text] the body decoded as text, and [resp_cut] says
    after how many streamed chunks the connection breaks, if it does. *)
Record response : Type := mk_response {
  status_code : Z;
  resp_content : list byte;
  resp_text : string;
  resp_cut : option nat
}.

Record world : Type := mk_world {
  fs : gmap string node;
  sent : list request
}.

Definition set_fs (w : world) (m : gmap string node) : world :=
  {| fs := m; sent := sent w |}.

Inductive result (A : Type) : Type :=
| Ok (a : A)
| Raise (e : exn).
Arguments Ok {A} a.
Arguments Raise {A} e.

(** State and exceptions: a computation maps the world to an outcome and
    the world it leaves behind, also when it raises. *)
Definition M (A : Type) : Type := world -> result A * world.

Definition ret {A} (a : A) : M A := fun w => (Ok a, w).

Definition raise {A} (e : exn) : M A := fun w => (Raise e, w).

Definition bind {A B} (m : M A) (k : A -> M B) : M B :=
  fun w =>
    match m w with
    | (Ok a, w') => k a w'
    | (Raise e, w') => (Raise e, w')
    end.

Notation "'do' x <- m ;; k" := (bind m (fun x => k))
  (at level 20, x name, m at level 99, k at level 200,
   format "'[v' 'do'  x  <-  m  ;;  '/' k ']'").
Notation "'run' m ;; k" := (bind m (fun _ => k))
  (at level 20, m at level 99, k at level 200,
   format "'[v' 'run'  m  ;;  '/' k ']'").

(** [for x in l: body x] *)
Fixpoint for_each {A} (l : list A) (body : A -> M unit) : M unit :=
  match l with
  | [] => ret tt
  | x :: l' => run body x ;; for_each l' body
  end.

(** *** Paths *)

Definition slash : ascii := "/"%char.

Fixpoint has_slash (s : string) : bool :=
  match s with
  | EmptyString => false
  | String c t => Ascii.eqb c slash || has_slash t
  end.

(** The directory part of a path: everything before its last separator,
    the empty string (the working directory) when there is none. *)
Fixpoint dirname (s : string) : string :=
  match s with
  | EmptyString => EmptyString
  | String c t => if has_slash t then String c (dirname t) else EmptyString
  end.

Definition is_dir (m : gmap string node) (d : string) : bool :=
  if String.eqb d "" then true
  else match m !! d with
       | Some Dir => true
       | _ => false
       end.

(** *** Files *)

(** [open(path, "rb")] followed by [read()]. *)
Definition read_file (path : string) : M (list byte) :=
  fun w =>
    match fs w !! path with
    | Some (File c) => (Ok c, w)
    | Some Dir => (Raise IsADirectoryError, w)
    | None => (Raise FileNotFoundError, w)
    end.

(** [open(path, "ab")]: creates the file when it is absent and its
    directory exists; returns the position [f.tell()], the end of file. *)
Definition open_append (path : string) : M nat :=
  fun w =>
    match fs w !! path with
    | Some (File c) => (Ok (length c), w)
    | Some Dir => (Raise IsADirectoryError, w)
    | None =>
        if is_dir (fs w) (dirname path)
        then (Ok O, set_fs w (<[path := File []]> (fs w)))
        else (Raise FileNotFoundError, w)
    end.

(** [open(path, "wb")] or [open(path, "w")]: creates or truncates. *)
Definition open_write (path : string) : M unit :=
  fun w =>
    match fs w !! path with
    | Some Dir => (Raise IsADirectoryError, w)
    | Some (File _) => (Ok tt, set_fs w (<[path := File []]> (fs w)))
    | None =>
        if is_dir (fs w) (dirname path)
        then (Ok tt, set_fs w (<[path := File []]> (fs w)))
        else (Raise FileNotFoundError, w)
    end.

(** [f.write(data)] on a file opened at [path]: the data goes to the end
    of the file. *)
Definition write (path : string) (data : list byte) : M unit :=
  fun w =>
    match fs w !! path with
    | Some (File c) => (Ok tt, set_fs w (<[path := File (c ++ data)]> (fs w)))
    | _ => (Ok tt, w)
    end.

(** ** Text: Python's [str] methods and [re] patterns *)

Local Open Scope string_scope.
Local Open Scope list_scope.

Module Text.

Definition chars : Type := list ascii.

Definition code (a : ascii) : N := N_of_ascii a.

(** [str.isspace] on one character, which is also what [\s] matches in a
    [str] pattern: the code points 9..13, 28..32, 0x85 and 0xA0. *)
Definition isspace (a : ascii) : bool :=
  let n := code a in
  ((9 <=? n) && (n <=? 13) || (28 <=? n) && (n <=? 32)
   || (n =? 133) || (n =? 160))%N.

Definition isdigit (a : ascii) : bool :=
  let n := code a in ((48 <=? n) && (n <=? 57))%N.

Definition newline : ascii := ascii_of_N 10.
Definition carriage_return : ascii := ascii_of_N 13.

Fixpoint lstrip (s : chars) : chars :=
  match s with
  | [] => []
  | a :: t => if isspace a then lstrip t else s
  end.

Definition rstrip (s : chars) : chars := rev (lstrip (rev s)).

(** [s.strip()] *)
Definition strip (s : string) : string :=
  string_of_list_ascii (rstrip (lstrip (list_ascii_of_string s))).

(** [s.split()]: the maximal runs of characters that are not whitespace.
    [cur] is the run being read, most recent character first. *)
Fixpoint split_aux (cur : chars) (s : chars) : list chars :=
  match s with
  | [] => match cur with [] => [] | _ => [rev cur] end
  | a :: t =>
      if isspace a then
        match cur with
        | [] => split_aux [] t
        | _ => rev cur :: split_aux [] t
        end
      else split_aux (a :: cur) t
  end.

Definition split (s : string) : list string :=
  map string_of_list_ascii (split_aux [] (list_ascii_of_string s)).

Fixpoint starts_with (p s : chars) : bool :=
  match p, s with
  | [], _ => true
  | a :: p', b :: s' => Ascii.eqb a b && starts_with p' s'
  | _ :: _, [] => false
  end.

(** [s.replace(old, new)] for a non-empty [old]: occurrences are replaced
    from left to right without overlap; [skip] counts the characters of
    an occurrence still to be passed over. *)
Fixpoint replace_aux (old new : chars) (skip : nat) (s : chars) : chars :=
  match s with
  | [] => []
  | a :: t =>
      match skip with
      | S k => replace_aux old new k t
      | O =>
          if starts_with old s
          then new ++ replace_aux old new (pred (length old)) t
          else a :: replace_aux old new O t
      end
  end.

Definition replace (old new s : string) : string :=
  string_of_list_ascii
    (replace_aux (list_ascii_of_string old) (list_ascii_of_string new) O
       (list_ascii_of_string s)).

(** [sep.join(l)] *)
Fixpoint join (sep : string) (l : list string) : string :=
  match l with
  | [] => ""
  | [x] => x
  | x :: l' => x +:+ sep +:+ join sep l'
  end.

Fixpoint spaces (n : nat) : string :=
  match n with
  | O => ""
  | S n' => String " " (spaces n')
  end.

(** ["{:w}".format(s)] for a string [s]: left-justified in a field of at
    least [w] characters. *)
Definition pad_field (w : nat) (s : string) : string :=
  s +:+ spaces (w - String.length s).

(** ["{:w1}{:w2}...".format( *r )]: one field per width, taken from the
    row in order; the cells beyond the last field are ignored and a
    missing cell is an [IndexError]. *)
Fixpoint format_row (widths : list nat) (r : list string) : option string :=
  match widths with
  | [] => Some ""
  | w :: ws =>
      match r with
      | [] => None
      | c :: r' =>
          match format_row ws r' with
          | Some rest => Some (pad_field w c +:+ rest)
          | None => None
          end
      end
  end.

Fixpoint format_rows (widths : list nat) (t : list (list string))
  : option (list string) :=
  match t with
  | [] => Some []
  | r :: t' =>
      match format_row widths r with
      | None => None
      | Some line =>
          match format_rows widths t' with
          | Some lines => Some (line :: lines)
          | None => None
          end
      end
  end.

(** ["{:02}".format(z)] for a natural number. *)
Definition format_02 (z : nat) : string :=
  let d := NilEmpty.string_of_uint (Nat.to_uint z) in
  match String.length d with
  | O => "00"
  | 1%nat => "0" +:+ d
  | _ => d
  end.

(** *** Regular expressions

    The constructs the script's patterns use, with the backtracking
    semantics of [re]: the outcomes of matching a pattern at the start of
    a text are listed in the order in which the matcher tries them, so the
    head of the list is the match it reports. *)

Inductive char_class : Type :=
| CLit (a : ascii)          (* a literal character *)
| CAny                      (* [.]: any character but a newline *)
| CDigit                    (* [\d] *)
| CSpace                    (* [\s] *)
| CSet (l : list ascii).    (* [[...]] *)

Inductive regex : Type :=
| Eps
| Chr (c : char_class)
| Seq (r1 r2 : regex)
| Alt (r1 r2 : regex)                  (* [r1|r2] *)
| Star (greedy : bool) (r : regex)     (* [r*] and [r*?] *)
| Plus (greedy : bool) (r : regex)     (* [r+] and [r+?] *)
| Rep (n : nat) (r : regex)            (* [r{n}] *)
| Group (i : nat) (r : regex)          (* the [i]-th capturing group *)
| NoCap (r : regex).                   (* [(?:r)] *)

Fixpoint Lits (s : string) : regex :=
  match s with
  | EmptyString => Eps
  | String a t => Seq (Chr (CLit a)) (Lits t)
  end.

Definition in_class (c : char_class) (a : ascii) : bool :=
  match c with
  | CLit b => Ascii.eqb a b
  | CAny => negb (Ascii.eqb a newline)
  | CDigit => isdigit a
  | CSpace => isspace a
  | CSet l => existsb (Ascii.eqb a) l
  end.

(** The captured groups, latest capture first. *)
Definition captures : Type := list (nat * chars).

Definition outcome : Type := captures * chars.

Fixpoint lookup_group (i : nat) (c : captures) : option chars :=
  match c with
  | [] => None
  | (j, s) :: c' => if Nat.eqb i j then Some s else lookup_group i c'
  end.

Definition consumed (s rest : chars) : chars :=
  firstn (length s - length rest) s.

(** Iteration of a pattern whose one-step matcher is [step]; an
    iteration that consumes nothing is not repeated. *)
Fixpoint star (step : captures -> chars -> list outcome) (greedy : bool)
    (fuel : nat) (c : captures) (s : chars) : list outcome :=
  match fuel with
  | O => [(c, s)]
  | S f =>
      let more :=
        flat_map (fun o : outcome =>
                    if (length (snd o) <? length s)%nat
                    then star step greedy f (fst o) (snd o)
                    else [])
                 (step c s) in
      if greedy then more ++ [(c, s)] else (c, s) :: more
  end.

(** [n] matches in a row. *)
Fixpoint times (step : captures -> chars -> list outcome) (n : nat)
    (c : captures) (s : chars) : list outcome :=
  match n with
  | O => [(c, s)]
  | S n' =>
      flat_map (fun o : outcome => times step n' (fst o) (snd o)) (step c s)
  end.

Fixpoint matches (r : regex) (c : captures) (s : chars) : list outcome :=
  match r with
  | Eps => [(c, s)]
  | Chr cl =>
      match s with
      | a :: t => if in_class cl a then [(c, t)] else []
      | [] => []
      end
  | Seq r1 r2 =>
      flat_map (fun o : outcome => matches r2 (fst o) (snd o))
               (matches r1 c s)
  | Alt r1 r2 => matches r1 c s ++ matches r2 c s
  | Star greedy r1 => star (matches r1) greedy (length s) c s
  | Plus greedy r1 =>
      flat_map (fun o : outcome =>
                  star (matches r1) greedy (length (snd o)) (fst o) (snd o))
               (matches r1 c s)
  | Rep n r1 => times (matches r1) n c s
  | Group i r1 =>
      map (fun o : outcome => ((i, consumed s (snd o)) :: fst o, snd o))
          (matches r1 c s)
  | NoCap r1 => matches r1 c s
  end.

(** The pattern as it is written in the source. *)
Definition class_pattern (c : char_class) : string :=
  match c with
  | CLit a =>
      if Ascii.eqb a "." then "\."
      else if Ascii.eqb a carriage_return then "\r"
      else if Ascii.eqb a newline then "\n"
      else String a ""
  | CAny => "."
  | CDigit => "\d"
  | CSpace => "\s"
  | CSet l => "[" +:+ string_of_list_ascii l +:+ "]"
  end.

Definition quantifier (sign : string) (greedy : bool) : string :=
  if greedy then sign else sign +:+ "?".

Fixpoint pattern (r : regex) : string :=
  match r with
  | Eps => ""
  | Chr c => class_pattern c
  | Seq r1 r2 => pattern r1 +:+ pattern r2
  | Alt r1 r2 => pattern r1 +:+ "|" +:+ pattern r2
  | Star greedy r1 => pattern r1 +:+ quantifier "*" greedy
  | Plus greedy r1 => pattern r1 +:+ quantifier "+" greedy
  | Rep n r1 =>
      pattern r1 +:+ "{" +:+ NilEmpty.string_of_uint (Nat.to_uint n) +:+ "}"
  | Group _ r1 => "(" +:+ pattern r1 +:+ ")"
  | NoCap r1 => "(?:" +:+ pattern r1 +:+ ")"
  end.

(** A match object: the matched text, the groups, and what follows. *)
Record rmatch : Type := mk_rmatch {
  m_text : chars;
  m_groups : captures;
  m_rest : chars
}.

Definition match_at (r : regex) (s : chars) : option rmatch :=
  match matches r [] s with
  | (c, rest) :: _ =>
      Some {| m_text := consumed s rest; m_groups := c; m_rest := rest |}
  | [] => None
  end.

(** The leftmost match in [s], with the text skipped before it. *)
Fixpoint search_from (r : regex) (s : chars) : option rmatch :=
  match match_at r s with
  | Some m => Some m
  | None =>
      match s with
      | [] => None
      | _ :: t => search_from r t
      end
  end.

(** The successive matches from left to right, without overlap.  After
    an empty match the scan moves on by one character. *)
Fixpoint scan (fuel : nat) (r : regex) (s : chars) : list rmatch :=
  match fuel with
  | O => []
  | S f =>
      match search_from r s with
      | None => []
      | Some m =>
          m :: match m_text m, m_rest m with
               | [], [] => []
               | [], _ :: t => scan f r t
               | _ :: _, rest => scan f r rest
               end
      end
  end.

(** [m.group()] and [m.group(i)] *)
Definition group0 (m : rmatch) : string := string_of_list_ascii (m_text m).

Definition group (i : nat) (m : rmatch) : string :=
  match lookup_group i (m_groups m) with
  | Some s => string_of_list_ascii s
  | None => ""
  end.

(** [re.search(r, s)] *)
Definition re_search (r : regex) (s : string) : option rmatch :=
  search_from r (list_ascii_of_string s).

(** [re.finditer(r, s)] *)
Definition re_finditer (r : regex) (s : string) : list rmatch :=
  let l := list_ascii_of_string s in scan (S (length l)) r l.

(** [re.findall(r, s)] for a pattern with one capturing group. *)
Definition re_findall (r : regex) (s : string) : list string :=
  map (group 1) (re_finditer r s).

End Text.

(** *** HTTP *)

Section Program.

(** The remote servers: the answer to a request, given the requests made
    before it; [None] is a network error. *)
Variable http : list request -> request -> option response.

(** The zip decoder of [zipfile.ZipFile]: the members of an archive, by
    name; [None] when the bytes are not a zip archive. *)
Variable unzip : list byte -> option (gmap string (list byte)).

Definition requests_get (r : request) : M response :=
  fun w =>
    let w' := {| fs := fs w; sent := sent w ++ [r] |} in
    match http (sent w) r with
    | Some resp => (Ok resp, w')
    | None => (Raise ConnectionError, w')
    end.

(** [resp.iter_content(n)]: the body in pieces of [n] bytes, the last one
    possibly shorter. *)
Fixpoint take_bytes (n : N) (l : list byte) : list byte :=
  match l with
  | [] => []
  | b :: l' => if (n =? 0)%N then [] else b :: take_bytes (N.pred n) l'
  end.

Fixpoint drop_bytes (n : N) (l : list byte) : list byte :=
  match l with
  | [] => []
  | b :: l' => if (n =? 0)%N then l else drop_bytes (N.pred n) l'
  end.

Fixpoint chunks (fuel : nat) (n : N) (l : list byte) : list (list byte) :=
  match fuel with
  | O => []
  | S f =>
      match l with
      | [] => []
      | _ => take_bytes n l :: chunks f n (drop_bytes n l)
      end
  end.

Definition iter_content (n : N) (resp : response) : list (list byte) :=
  chunks (length (resp_content resp)) n (resp_content resp).

(** [for chunk in resp.iter_content(n): f.write(chunk)], with a stream
    that may break after [resp_cut] chunks. *)
Definition write_stream (path : string) (n : N) (resp : response) : M unit :=
  match resp_cut resp with
  | None => for_each (iter_content n resp) (write path)
  | Some k =>
      run for_each (firstn k (iter_content n resp)) (write path) ;;
      raise ConnectionError
  end.

(** ** The script *)

Definition download_file (url file_path : string) : M unit :=
  do resume_byte_pos <- open_append file_path ;;
  do resp <- requests_get
            {| req_url := url; req_range := Some resume_byte_pos;
               req_stream := true; req_verify := false |} ;;
  if ((status_code resp =? 200) || (status_code resp =? 206))%Z
  then write_stream file_path 4096000 resp
  else ret tt.

Definition zip_open (zip_file : string) : M (gmap string (list byte)) :=
  do bs <- read_file zip_file ;;
  match unzip bs with
  | Some z => ret z
  | None => raise BadZipFile
  end.

(** Reading the member once the output file is open: when the output
    path is the archive itself, the archive was just truncated and the
    read hits the end of the file. *)
Definition extract_file_from_zip (path zip_file output_file : string)
  : M unit :=
  do z <- zip_open zip_file ;;
  match z !! path with
  | None => raise KeyError
  | Some member =>
      run open_write output_file ;;
      if String.eqb output_file zip_file then raise EOFError
      else write output_file member
  end.

Definition verify_file (path checksum : string) : M bool :=
  do bs <- read_file path ;;
  ret (String.eqb (Sha1.hexdigest bs) checksum).

Definition download_with_check (url checksum file : string) : M unit :=
  do ok <- verify_file file checksum ;;
  if negb ok then download_file url file else ret tt.

Definition data_url : string :=
  "https://journals.sagepub.com/doi/suppl/10.1177/ANIB_38_3/suppl_file/P107JAICRP_38_3_Nuclear_Decay_Data_suppl_data.zip".
Definition data_checksum : string :=
  "7c9dacf10da430228e66777c954885abf4267c71".
Definition data_file_name : string :=
  "P107JAICRP_38_3_Nuclear_Decay_Data_suppl_data.zip".
Definition base_path : string :=
  "P 107 JAICRP 38(3) Nuclear Decay Data for Dosimetric Calculations(supplementary data)/".
Definition base_output_path : string := "icrp107/".
Definition icrp_files : list string :=
  ["ICRP-07.NDX"; "ICRP-07.RAD"; "ICRP-07.BET"; "ICRP-07.NSF"; "ICRP-07.ACK"].
Definition corr_url : string :=
  "https://www.icrp.org/docs/Corrigenda%20of%20Publication%20107.zip".
Definition corr_checksum : string :=
  "beede0b46b73b0f1d521383620167368ca0d3a04".
Definition corr_file_name : string := "Corrigenda of Publication 107.zip".
Definition corr_member : string :=
  "Corrigenda of Publication 107/ICRP-07.NDX".

Definition icrp107 : M unit :=
  run download_with_check data_url data_checksum data_file_name ;;
  run for_each icrp_files (fun file =>
    extract_file_from_zip
      (base_path +:+ file) data_file_name (base_output_path +:+ file)) ;;
  run download_with_check corr_url corr_checksum corr_file_name ;;
  extract_file_from_zip
    corr_member corr_file_name (base_output_path +:+ "ICRP-07.NDX").

(** *** The NIST scrapers *)

(** [requests.get(url)] with the library's defaults. *)
Definition plain_get (url : string) : request :=
  {| req_url := url; req_range := None;
     req_stream := false; req_verify := true |}.

Import Text.

Definition materials_url : string :=
  "https://physics.nist.gov/PhysRefData/XrayMassCoef/tab1.html".

(** The pattern "<TABLE.*>.*</TABLE>". *)
Definition table_re : regex :=
  Seq (Lits "<TABLE")
    (Seq (Star true (Chr CAny))
       (Seq (Chr (CLit ">"))
          (Seq (Star true (Chr CAny)) (Lits "</TABLE>")))).

(** The pattern "<TR>(.*?)</TR>". *)
Definition tr_re : regex :=
  Seq (Lits "<TR>")
    (Seq (Group 1 (Star false (Chr CAny))) (Lits "</TR>")).

(** The pattern "<TD.*?>(.*?)</TD>". *)
Definition td_re : regex :=
  Seq (Lits "<TD")
    (Seq (Star false (Chr CAny))
       (Seq (Chr (CLit ">"))
          (Seq (Group 1 (Star false (Chr CAny))) (Lits "</TD>")))).

Definition nbsp : string := "&nbsp;".

(** The comprehension
    [cell.strip() for cell in re.findall(td, row) if cell != "&nbsp;"]. *)
Definition row_cells (row : string) : list string :=
  map strip
    (List.filter (fun cell => negb (String.eqb cell nbsp))
       (re_findall td_re row)).

Definition material_header : list (list string) :=
  [ ["Z"; "Symbol"; "Element"; "Z/A"; "I"; "Density"];
    [""; ""; ""; ""; "(eV)"; "(g/cm3)"] ].

Definition material_widths : list nat := [4; 8; 18; 10; 10; 10]%nat.

(** The rows of [nist_material_constants] before they are formatted;
    [None] when the page has no table ([re.search] returns [None]). *)
Definition material_table (text : string) : option (list (list string)) :=
  let html := replace (String carriage_return (String newline "")) "" text in
  match re_search table_re html with
  | None => None
  | Some m =>
      let html_table := group0 m in
      let html_rows := skipn 3 (re_findall tr_re html_table) in
      Some (material_header ++ map row_cells html_rows)
  end.

Definition nist_material_constants : M string :=
  do resp <- requests_get (plain_get materials_url) ;;
  match material_table (resp_text resp) with
  | None => raise AttributeError
  | Some table =>
      match format_rows material_widths table with
      | None => raise IndexError
      | Some lines => ret (join (String newline "") lines)
      end
  end.

Definition base_url (z : nat) : string :=
  "https://physics.nist.gov/PhysRefData/XrayMassCoef/ElemTab/z"
  +:+ format_02 z +:+ ".html".

(** The pattern of the PRE block: "(?:<PRE>)", then the first group, a
    greedy star over the second group "(\r|\n|.)", then "(?:</PRE>)". *)
Definition pre_re : regex :=
  Seq (NoCap (Lits "<PRE>"))
    (Seq (Group 1
            (Star true
               (Group 2
                  (Alt (Chr (CLit carriage_return))
                     (Alt (Chr (CLit newline)) (Chr CAny))))))
       (NoCap (Lits "</PRE>"))).

(** The pattern "(\d\.\d+?E[+-]\d{2}\s+){3}". *)
Definition triple_re : regex :=
  Rep 3
    (Group 1
       (Seq (Chr CDigit)
          (Seq (Chr (CLit "."))
             (Seq (Plus false (Chr CDigit))
                (Seq (Chr (CLit "E"))
                   (Seq (Chr (CSet ["+"; "-"]%char))
                      (Seq (Rep 2 (Chr CDigit))
                         (Plus true (Chr CSpace))))))))).

Definition media_header : list (list string) :=
  [ ["Energy"; "mu/rho"; "mu_en/rho"];
    ["(MeV)"; "(cm2/g)"; "(cm2/g)"] ].

Definition media_widths : list nat := [12; 12; 12]%nat.

(** The rows of [nist_elemental_media] before they are formatted. *)
Definition media_table (html : string) : option (list (list string)) :=
  match re_search pre_re html with
  | None => None
  | Some m =>
      let html_pre := group0 m in
      Some (media_header
            ++ map (fun row => split (group0 row))
                   (re_finditer triple_re html_pre))
  end.

Definition nist_elemental_media (z : nat) : M string :=
  do resp <- requests_get (plain_get (base_url z)) ;;
  match media_table (resp_text resp) with
  | None => raise AttributeError
  | Some table =>
      match format_rows media_widths table with
      | None => raise IndexError
      | Some lines => ret (join (String newline "") lines)
      end
  end.

(** [os.makedirs(path, exist_ok=True)]: the ancestors of [path], outermost
    first, are created as needed, then [path] itself. *)
Fixpoint ancestors (s : string) : list string :=
  match s with
  | EmptyString => []
  | String c t =>
      (if Ascii.eqb c slash then [""] else [])
      ++ map (String c) (ancestors t)
  end.

Definition mkdir_exist_ok (leaf : bool) (d : string) : M unit :=
  fun w =>
    if String.eqb d "" then (Ok tt, w)
    else match fs w !! d with
         | Some Dir => (Ok tt, w)
         | Some (File _) =>
             (Raise (if leaf then FileExistsError else NotADirectoryError), w)
         | None => (Ok tt, set_fs w (<[d := Dir]> (fs w)))
         end.

Definition makedirs (path : string) : M unit :=
  run for_each (ancestors path) (mkdir_exist_ok false) ;;
  mkdir_exist_ok true path.

(** The bytes of a text written through [open(path, "w")]: UTF-8, which
    takes two bytes from code point 128 on. *)
Definition byte_of_N (n : N) : byte :=
  match Byte.of_N n with
  | Some b => b
  | None => x00
  end.

Fixpoint encode (s : string) : list byte :=
  match s with
  | EmptyString => []
  | String a t =>
      let n := N_of_ascii a in
      if (n <? 128)%N then byte_of_N n :: encode t
      else byte_of_N (192 + n / 64) :: byte_of_N (128 + n mod 64) :: encode t
  end.

Definition data_path : string := "XrayMassAttenCoef".

(** Each file is opened for writing before the page that fills it is
    fetched, as the [with] statements of the source do; [range(1, 2)] is
    the one number 1. *)
Definition nist_mass_attenuation_coefficient : M unit :=
  run makedirs data_path ;;
  let constants := data_path +:+ "/material_constants" in
  run open_write constants ;;
  do text <- nist_material_constants ;;
  run write constants (encode text) ;;
  for_each (seq 1 1) (fun z =>
    let out := data_path +:+ "/" +:+ format_02 z in
    run open_write out ;;
    do text <- nist_elemental_media z ;;
    write out (encode text)).

(** *** The selector *)

(** The command line as [argparse] reads it: the flag [--dataset] is
    absent, or it is present with the values that follow it. *)
Inductive cmdline : Type :=
| NoFlag
| Flag (values : list string).

(** The value of [args.dataset]: the default is the string [all], a flag
    gives the list of its values. *)
Inductive dataset_arg : Type :=
| ArgStr (s : string)
| ArgList (l : list string).

Definition all_datasets : list string :=
  ["icrp107"; "nist_mass_attenuation_coefficient"].

Definition choices : list string := "all" :: all_datasets.

Definition mem (x : string) (l : list string) : bool :=
  existsb (String.eqb x) l.

(** [parser.parse_args()] with [nargs="*"], [choices] and [default="all"]:
    a value outside [choices] ends the process with status 2. *)
Definition parse_args (c : cmdline) : M dataset_arg :=
  match c with
  | NoFlag => ret (ArgStr "all")
  | Flag values =>
      if forallb (fun v => mem v choices) values
      then ret (ArgList values)
      else raise (SystemExit 2)
  end.

Fixpoint is_substring (p : list ascii) (s : list ascii) : bool :=
  starts_with p s
  || match s with
     | [] => false
     | _ :: t => is_substring p t
     end.

(** ["all" in args.dataset]: a substring test on a string, a membership
    test on a list. *)
Definition contains_all (a : dataset_arg) : bool :=
  match a with
  | ArgStr s =>
      is_substring (list_ascii_of_string "all") (list_ascii_of_string s)
  | ArgList l => mem "all" l
  end.

(** The elements a [for] loop takes from [args.dataset]: the items of a
    list, the characters of a string. *)
Definition iterate (a : dataset_arg) : list string :=
  match a with
  | ArgStr s => map (fun c => String c "") (list_ascii_of_string s)
  | ArgList l => l
  end.

Definition datasets (a : dataset_arg) : list string :=
  if contains_all a then all_datasets else iterate a.

Definition dispatch (ds : string) : M unit :=
  if String.eqb ds "icrp107" then icrp107
  else if String.eqb ds "nist_mass_attenuation_coefficient"
       then nist_mass_attenuation_coefficient
       else ret tt.

Definition main (c : cmdline) : M unit :=
  do args <- parse_args c ;;
  for_each (datasets args) dispatch.

End Program.

(** The exit status of the process: 0 at the end of the script, the
    status of [SystemExit], 1 for any other exception that escapes. *)
Definition exit_code (r : result unit) : Z :=
  match r with
  | Ok _ => 0
  | Raise (SystemExit n) => n
  | Raise _ => 1
  end.

(** * Vocabulary of the statements

    Requests, sample servers and worlds, field offsets and the markup of
    table rows, as the theorems below speak of them. *)

Import Text.

(** The request [download_file] makes for a file of [pos] bytes. *)
Definition range_get (url : string) (pos : nat) : request :=
  {| req_url := url; req_range := Some pos;
     req_stream := true; req_verify := false |}.

(** The contents of the file at [path]; no file counts as no bytes. *)
Definition file_bytes (m : gmap string node) (path : string) : list byte :=
  match m !! path with
  | Some (File c) => c
  | _ => []
  end.

(** The call [download_file url path] from [w] reaches its GET and the
    server answers [resp]. *)
Definition responds (http : list request -> request -> option response)
    (url path : string) (w : world) (resp : response) : Prop :=
  exists pos,
    sent (snd (download_file http url path w))
    = sent w ++ [range_get url pos]
    /\ http (sent w) (range_get url pos) = Some resp.

(** The test [download_file] makes on the status of the response. *)
Definition accepted (resp : response) : bool :=
  ((status_code resp =? 200) || (status_code resp =? 206))%Z.

(** ** Sample servers, files and pages *)

Definition bytes (s : string) : list byte := list_byte_of_string s.

(** A network on which every request fails. *)
Definition no_network : list request -> request -> option response :=
  fun _ _ => None.

(** A server that answers every request with [status] and [body]. *)
Definition always (status : Z) (body : string)
  : list request -> request -> option response :=
  fun _ _ =>
    Some {| status_code := status; resp_content := bytes body;
            resp_text := body; resp_cut := None |}.

Definition one_file (path : string) (c : list byte) : world :=
  {| fs := {[ path := File c ]}; sent := [] |}.

Definition empty_world : world := {| fs := ∅; sent := [] |}.

Definition not_found : response :=
  {| status_code := 404; resp_content := bytes "gone";
     resp_text := "gone"; resp_cut := None |}.

Fixpoint bytes_eqb (a b : list byte) : bool :=
  match a, b with
  | [], [] => true
  | x :: a', y :: b' => Byte.eqb x y && bytes_eqb a' b'
  | _, _ => false
  end.

(** A sample run of the assembler: both archives are already on disk,
    the server refuses the range requests, and the decoder knows two
    archives. *)
Definition sample_base : gmap string (list byte) :=
  list_to_map
    (map (fun file => (base_path +:+ file, bytes ("base " +:+ file)))
         icrp_files).

Definition sample_corr : gmap string (list byte) :=
  {[ corr_member := bytes "corrected index" ]}.

Definition sample_unzip (bs : list byte)
  : option (gmap string (list byte)) :=
  if bytes_eqb bs (bytes "PK base") then Some sample_base
  else if bytes_eqb bs (bytes "PK corr") then Some sample_corr
  else None.

Definition sample_world : world :=
  {| fs := <[data_file_name := File (bytes "PK base")]>
             (<[corr_file_name := File (bytes "PK corr")]>
                {[ "icrp107" := Dir ]});
     sent := [] |}.

Definition sample_end : world :=
  snd (icrp107 (always 416 "") sample_unzip sample_world).

Definition sample_pre_page : string :=
  "<PRE>1.000E-03 1.000E+01 2.000E+01 9.999E-04 1.0E+00 1.0E+00</PRE>".

Definition sample_table_page : string :=
  "<TABLE><TR>h1</TR><TR>h2</TR><TR>h3</TR><TR><TD>1</TD><TD>H</TD><TD>Hydrogen</TD><TD>0.5</TD><TD>19.2</TD><TD>8.4e-5</TD></TR></TABLE>".

Definition lines (l : list string) : string := join (String newline "") l.

(** ** Formatted rows *)

(** The width of a field is the larger of the column width and the
    length of the cell. *)
Definition field_width (w : nat) (c : string) : nat :=
  Nat.max w (String.length c).

(** The offset at which the [k]-th field of a formatted row starts. *)
Definition field_offset (widths : list nat) (row : list string) (k : nat)
  : nat :=
  list_sum (zip_with field_width (firstn k widths) row).

(** A row whose third cell is longer than its column. *)
Definition long_row : list string :=
  ["1"; "H"; "A very long element name"; "0.5"; "19.2"; "8.4e-5"].

Definition long_line : string :=
  "1   H       A very long element name0.5       19.2      8.4e-5    ".

(** ** Matching *)

(** The outcome the matcher reports: the first it finds. *)
Definition first_outcome (l : list outcome) (o : outcome) : Prop :=
  exists tl, l = o :: tl.

(** The outcomes of a lazy [.*?], in order: stop at once, or pass one
    more character that is not a newline. *)
Fixpoint lazy_tails (s : chars) : list chars :=
  s :: match s with
       | a :: t => if in_class CAny a then lazy_tails t else []
       | [] => []
       end.

(** A cell text without [<] and without newline. *)
Definition plain_char (a : ascii) : bool :=
  negb (Ascii.eqb a "<") && negb (Ascii.eqb a newline).

Definition plain_cell (c : string) : bool :=
  forallb plain_char (list_ascii_of_string c).

Definition td_open : chars := list_ascii_of_string "<TD>".
Definition td_close : chars := list_ascii_of_string "</TD>".

(** The markup of a row of cells: each one between [<TD>] and [</TD>]. *)
Fixpoint render_cells (cells : list chars) : chars :=
  match cells with
  | [] => []
  | c :: cells' => td_open ++ c ++ td_close ++ render_cells cells'
  end.

Fixpoint render_row (cells : list string) : string :=
  match cells with
  | [] => ""
  | c :: cells' => "<TD>" +:+ c +:+ "</TD>" +:+ render_row cells'
  end.

(** A table whose data row has a placeholder between two spaces. *)
Definition padded_placeholder_page : string :=
  "<TABLE><TR>h1</TR><TR>h2</TR><TR>h3</TR><TR><TD>1</TD><TD> &nbsp; </TD><TD>&nbsp;</TD><TD>H</TD></TR></TABLE>".

(** A server whose first answer breaks before any piece arrives and
    whose later answers deliver the body. *)
Definition broken (body : string) : response :=
  {| status_code := 200; resp_content := bytes body;
     resp_text := body; resp_cut := Some O |}.

Definition partial (body : string) : response :=
  {| status_code := 206; resp_content := bytes body;
     resp_text := body; resp_cut := None |}.

Definition breaking_server (body : string)
  : list request -> request -> option response :=
  fun history _ =>
    match history with
    | [] => Some (broken body)
    | _ => Some (partial body)
    end.

Definition abc_checksum : string :=
  "a9993e364706816aba3e25717850c26c9cd0d89d".

(** ** Footprints *)

(** A computation is confined to [paths] and [urls] when, however it
    ends, every other path is as it was and every request it sent went to
    one of [urls]. *)
Definition confined {A} (m : M A) (paths urls : list string) : Prop :=
  forall w,
    (forall p, ~ In p paths -> fs (snd (m w)) !! p = fs w !! p)
    /\ exists l,
         sent (snd (m w)) = sent w ++ l
         /\ Forall (fun r => In (req_url r) urls) l.

Definition icrp107_paths : list string :=
  data_file_name :: corr_file_name
  :: map (fun file => base_output_path +:+ file) icrp_files.

Definition icrp107_urls : list string := [data_url; corr_url].

Definition nist_paths : list string :=
  [data_path; data_path +:+ "/material_constants"; data_path +:+ "/01"].

Definition nist_urls : list string := [materials_url; base_url 1].

(** A server that answers by URL: the page of material constants, and
    the page of an element for every other address. *)
Definition page (body : string) : response :=
  {| status_code := 200; resp_content := bytes body;
     resp_text := body; resp_cut := None |}.

Definition nist_server : list request -> request -> option response :=
  fun _ r =>
    if String.eqb (req_url r) materials_url
    then Some (page sample_table_page)
    else Some (page sample_pre_page).

Definition material_lines : list string :=
  ["Z   Symbol  Element           Z/A       I         Density   ";
   "                                        (eV)      (g/cm3)   ";
   "1   H       Hydrogen          0.5       19.2      8.4e-5    "].

Definition media_lines : list string :=
  ["Energy      mu/rho      mu_en/rho   ";
   "(MeV)       (cm2/g)     (cm2/g)     ";
   "1.000E-03   1.000E+01   2.000E+01   "].

(** A working directory that already holds a table of constants. *)
Definition old_table_world : world :=
  {| fs := <["XrayMassAttenCoef/material_constants" := File (bytes "old")]>
             {[ "XrayMassAttenCoef" := Dir ]};
     sent := [] |}.

(** ** The texts a pattern matches *)

(** The language of a pattern: what a match of it can consume. *)
Fixpoint lang (r : regex) (p : chars) : Prop :=
  match r with
  | Eps => p = []
  | Chr c => exists a, p = [a] /\ in_class c a = true
  | Seq r1 r2 => exists p1 p2, p = p1 ++ p2 /\ lang r1 p1 /\ lang r2 p2
  | Alt r1 r2 => lang r1 p \/ lang r2 p
  | Star _ r1 => exists ps, p = concat ps /\ Forall (lang r1) ps
  | Plus _ r1 =>
      exists p1 ps, p = p1 ++ concat ps /\ lang r1 p1 /\ Forall (lang r1) ps
  | Rep n r1 =>
      exists ps, length ps = n /\ p = concat ps /\ Forall (lang r1) ps
  | Group _ r1 => lang r1 p
  | NoCap r1 => lang r1 p
  end.

(** A field of a data row: a token without whitespace, then whitespace. *)
Definition no_space (a : ascii) : bool := negb (isspace a).

Definition field (g : chars) : Prop :=
  exists tok ws,
    g = tok ++ ws
    /\ tok <> [] /\ forallb no_space tok = true
    /\ ws <> [] /\ forallb isspace ws = true.

(** A page whose data row has a placeholder among its six cells. *)
Definition short_row_page : string :=
  "<TABLE><TR>h1</TR><TR>h2</TR><TR>h3</TR><TR><TD>1</TD><TD>H</TD><TD>&nbsp;</TD><TD>0.5</TD><TD>19.2</TD><TD>8.4e-5</TD></TR></TABLE>".

(** Every character, by code. *)
Definition all_ascii : list ascii := map ascii_of_nat (seq 0 256).

(** Every character of the class satisfies [P]. *)
Definition class_within (P : ascii -> bool) (c : char_class) : bool :=
  forallb (fun a => implb (in_class c a) (P a)) all_ascii.

(** Every character class of the pattern is within [P]. *)
Fixpoint within (P : ascii -> bool) (r : regex) : bool :=
  match r with
  | Eps => true
  | Chr c => class_within P c
  | Seq r1 r2 | Alt r1 r2 => within P r1 && within P r2
  | Star _ r1 | Plus _ r1 | Rep _ r1 | Group _ r1 | NoCap r1 => within P r1
  end.

(** A server that answers every request and never with status 200 or
    206. *)
Definition refusing (http : list request -> request -> option response)
  : Prop :=
  forall history r,
    exists resp, http history r = Some resp /\ accepted resp = false.

(** * Properties *)

(** ** SHA-1 *)

(** Test vectors of FIPS 180 (empty message, one block, two blocks). *)
Example sha1_empty :
  Sha1.hexdigest [] = "da39a3ee5e6b4b0d3255bfef95601890afd80709"%string.
Proof. vm_compute. reflexivity. Qed.

Example sha1_abc :
  Sha1.hexdigest (list_byte_of_string "abc")
  = "a9993e364706816aba3e25717850c26c9cd0d89d"%string.
Proof. vm_compute. reflexivity. Qed.

Example sha1_two_blocks :
  Sha1.hexdigest
    (list_byte_of_string
       "abcdbcdecdefdefgefghfghighijhijkijkljklmklmnlmnomnopnopq")
  = "84983e441c3bd26ebaae4aa1f95129e5e54670f1"%string.
Proof. vm_compute. reflexivity. Qed.

(** ** The monad *)

Lemma world_eq (w w' : world) :
  fs w = fs w' -> sent w = sent w' -> w = w'.
Proof. destruct w, w'; simpl; intros; subst; reflexivity. Qed.

Lemma bind_ok {A B} (m : M A) (k : A -> M B) (w w' : world) (b : B) :
  bind m k w = (Ok b, w') ->
  exists a w1, m w = (Ok a, w1) /\ k a w1 = (Ok b, w').
Proof.
  unfold bind. destruct (m w) as [[a | e] w1]; intros H.
  - exists a, w1. split; [reflexivity | exact H].
  - discriminate H.
Qed.

Lemma bind_step {A B} (m : M A) (k : A -> M B) (w w1 : world) (a : A) :
  m w = (Ok a, w1) -> bind m k w = k a w1.
Proof. unfold bind. intros ->. reflexivity. Qed.

Lemma bind_raise {A B} (m : M A) (k : A -> M B) (w w1 : world) (e : exn) :
  m w = (Raise e, w1) -> bind m k w = (Raise e, w1).
Proof. unfold bind. intros ->. reflexivity. Qed.

(** ** Streaming a response body *)

Lemma take_drop_bytes (n : N) (l : list byte) : take_bytes n l ++ drop_bytes n l = l.
Proof.
  revert n. induction l as [| b l IH]; intros n; simpl; [reflexivity |].
  destruct (n =? 0)%N; simpl; [reflexivity |]. now rewrite IH.
Qed.

Lemma drop_bytes_length (n : N) (l : list byte) :
  (length (drop_bytes n l) <= length l)%nat.
Proof.
  revert n. induction l as [| b l IH]; intros n; simpl; [lia |].
  destruct (n =? 0)%N; simpl; [lia |]. specialize (IH (N.pred n)). lia.
Qed.

Lemma drop_bytes_shorter (n : N) (b : byte) (l : list byte) :
  (0 < n)%N -> (length (drop_bytes n (b :: l)) < length (b :: l))%nat.
Proof.
  intros Hn. simpl. destruct (N.eqb_spec n 0) as [-> | _]; [lia |].
  pose proof (drop_bytes_length (N.pred n) l). lia.
Qed.

(** The pieces of [iter_content] put end to end are the body. *)
Lemma concat_chunks (n : N) (fuel : nat) (l : list byte) :
  (0 < n)%N -> (length l <= fuel)%nat -> concat (chunks fuel n l) = l.
Proof.
  intros Hn. revert l. induction fuel as [| f IH]; intros l Hl.
  - destruct l; [reflexivity | simpl in Hl; lia].
  - destruct l as [| b l]; [reflexivity |].
    change (chunks (S f) n (b :: l))
      with (take_bytes n (b :: l) :: chunks f n (drop_bytes n (b :: l))).
    rewrite concat_cons, IH, take_drop_bytes; [reflexivity |].
    pose proof (drop_bytes_shorter n b l Hn). simpl in *. lia.
Qed.

Lemma concat_iter_content (n : N) (resp : response) :
  (0 < n)%N -> concat (iter_content n resp) = resp_content resp.
Proof. intros Hn. apply concat_chunks; [exact Hn | lia]. Qed.

(** Writing pieces one after the other appends their concatenation. *)
Lemma for_each_write (path : string) (ls : list (list byte)) :
  forall (w : world) (c : list byte),
    fs w !! path = Some (File c) ->
    for_each ls (write path) w
    = (Ok tt, set_fs w (<[path := File (c ++ concat ls)]> (fs w))).
Proof.
  induction ls as [| l ls IH]; intros w c Hc; simpl.
  - unfold ret. f_equal. apply world_eq; simpl; [| reflexivity].
    rewrite app_nil_r. symmetry. now apply insert_id.
  - assert (Hw : write path l w
                 = (Ok tt, set_fs w (<[path := File (c ++ l)]> (fs w)))).
    { unfold write. now rewrite Hc. }
    rewrite (bind_step _ _ _ _ _ Hw).
    rewrite (IH _ (c ++ l)); [| simpl; apply lookup_insert_eq].
    f_equal. apply world_eq; simpl; [| reflexivity].
    now rewrite insert_insert_eq, <- app_assoc.
Qed.

(** ** The checksummed fetcher *)

Section Fetcher.

Variable http : list request -> request -> option response.

Lemma open_append_sent (path : string) (w w1 : world) (r : result nat) :
  open_append path w = (r, w1) -> sent w1 = sent w.
Proof.
  unfold open_append.
  destruct (fs w !! path) as [[c |] |];
    [| | destruct (is_dir (fs w) (dirname path))];
    intros [= <- <-]; reflexivity.
Qed.

Lemma open_append_file (path : string) (w w1 : world) (pos : nat) :
  open_append path w = (Ok pos, w1) ->
  fs w1 !! path = Some (File (file_bytes (fs w) path))
  /\ pos = length (file_bytes (fs w) path)
  /\ (forall p, p <> path -> fs w1 !! p = fs w !! p)
  /\ (fs w !! path = None -> fs w1 <> fs w).
Proof.
  unfold open_append, file_bytes.
  destruct (fs w !! path) as [[c |] |] eqn:E.
  - intros [= <- <-]. rewrite E.
    repeat split; try reflexivity; discriminate.
  - discriminate.
  - destruct (is_dir (fs w) (dirname path)); [| discriminate].
    intros [= <- <-]. simpl. rewrite lookup_insert_eq.
    repeat split.
    + intros p Hp. now apply lookup_insert_ne.
    + intros _ Heq.
      assert (H : <[path := File []]> (fs w) !! path = fs w !! path)
        by now rewrite Heq.
      rewrite lookup_insert_eq, E in H. discriminate H.
Qed.

(** A list is not its own extension. *)
Lemma app_one_neq {A} (l : list A) (x : A) : l ++ [x] <> l.
Proof.
  intros H. apply (f_equal (@length A)) in H.
  rewrite length_app in H. simpl in H. lia.
Qed.

(** When the call is answered, the file was opened and the call goes on
    with the response. *)
Lemma responds_inv (url path : string) (w : world) (resp : response) :
  responds http url path w resp ->
  exists w1,
    open_append path w = (Ok (length (file_bytes (fs w) path)), w1)
    /\ http (sent w) (range_get url (length (file_bytes (fs w) path)))
       = Some resp
    /\ download_file http url path w
       = (if accepted resp then write_stream path 4096000 resp else ret tt)
           {| fs := fs w1; sent := sent w ++ [range_get url
                                    (length (file_bytes (fs w) path))] |}.
Proof.
  intros [pos [Hsent Hresp]]. unfold download_file in *.
  destruct (open_append path w) as [[p | e] w1] eqn:Hopen.
  - pose proof (open_append_sent _ _ _ _ Hopen) as Hs.
    destruct (open_append_file _ _ _ _ Hopen) as (_ & -> & _).
    exists w1. split; [reflexivity |].
    rewrite (bind_step _ _ _ _ _ Hopen) in Hsent |- *.
    fold (range_get url (length (file_bytes (fs w) path))) in Hsent |- *.
    set (req := range_get url (length (file_bytes (fs w) path))) in *.
    unfold bind, requests_get in Hsent |- *. rewrite Hs in Hsent |- *.
    destruct (http (sent w) req) as [resp' |] eqn:Hreq.
    + assert (Hpos : req = range_get url pos).
      { destruct (accepted resp') eqn:Ha; unfold accepted in Ha;
          rewrite Ha in Hsent.
        - unfold write_stream in Hsent.
          destruct (resp_cut resp') as [k |].
          + unfold bind in Hsent.
            erewrite for_each_write in Hsent
              by (simpl; apply (open_append_file _ _ _ _ Hopen)).
            simpl in Hsent. now apply app_inj_tail in Hsent as [_ ?].
          + erewrite for_each_write in Hsent
              by (simpl; apply (open_append_file _ _ _ _ Hopen)).
            simpl in Hsent. now apply app_inj_tail in Hsent as [_ ?].
        - simpl in Hsent. now apply app_inj_tail in Hsent as [_ ?]. }
      rewrite <- Hpos in Hresp. rewrite Hreq in Hresp.
      injection Hresp as ->. split; [reflexivity |].
      unfold accepted. reflexivity.
    + simpl in Hsent. apply app_inj_tail in Hsent as [_ Hpos].
      rewrite <- Hpos in Hresp. congruence.
  - rewrite (bind_raise _ _ _ _ _ Hopen) in Hsent. simpl in Hsent.
    rewrite (open_append_sent _ _ _ _ Hopen) in Hsent.
    symmetry in Hsent. now apply app_one_neq in Hsent.
Qed.

(** Streaming into an existing file appends to it, whether or not the
    stream breaks; an unbroken stream appends the whole body. *)
Lemma write_stream_appends (path : string) (resp : response) (w : world)
    (c : list byte) :
  fs w !! path = Some (File c) ->
  exists r data,
    write_stream path 4096000 resp w
    = (r, set_fs w (<[path := File (c ++ data)]> (fs w)))
    /\ (resp_cut resp = None -> r = Ok tt /\ data = resp_content resp).
Proof.
  intros Hc. unfold write_stream. destruct (resp_cut resp) as [k |].
  - exists (Raise ConnectionError), (concat (firstn k (iter_content 4096000 resp))).
    split; [| discriminate].
    unfold bind. now rewrite (for_each_write _ _ _ _ Hc).
  - exists (Ok tt), (concat (iter_content 4096000 resp)).
    split; [now apply for_each_write |].
    intros _. split; [reflexivity |]. now apply concat_iter_content.
Qed.

Lemma accepted_false (resp : response) :
  status_code resp <> 200%Z -> status_code resp <> 206%Z ->
  accepted resp = false.
Proof.
  intros H1 H2. unfold accepted.
  apply Z.eqb_neq in H1, H2. now rewrite H1, H2.
Qed.

(** C2. When the file at [file] exists and its SHA-1 digest is
    [checksum], [download_with_check] does nothing: it returns normally
    and leaves the world as it was, so no request is sent and no file
    changes. *)
Theorem download_with_check_noop (url checksum file : string) (w : world)
    (c : list byte) :
  fs w !! file = Some (File c) ->
  Sha1.hexdigest c = checksum ->
  download_with_check http url checksum file w = (Ok tt, w).
Proof.
  intros Hc Hsum. unfold download_with_check, verify_file, bind, read_file.
  rewrite Hc. unfold ret. rewrite Hsum, String.eqb_refl. reflexivity.
Qed.

(** C3. When the server answers the GET of [download_file] with a status
    other than 200 and 206, the call returns normally, the bytes of the
    destination file are what they were (none, for a file that did not
    exist) and no other path changes. *)
Theorem download_file_ignores_status (url path : string) (w : world)
    (resp : response) :
  responds http url path w resp ->
  status_code resp <> 200%Z ->
  status_code resp <> 206%Z ->
  fst (download_file http url path w) = Ok tt
  /\ file_bytes (fs (snd (download_file http url path w))) path
     = file_bytes (fs w) path
  /\ forall p, p <> path ->
       fs (snd (download_file http url path w)) !! p = fs w !! p.
Proof.
  intros Hr H200 H206.
  destruct (responds_inv _ _ _ _ Hr) as (w1 & Hopen & _ & ->).
  rewrite (accepted_false _ H200 H206). simpl.
  destruct (open_append_file _ _ _ _ Hopen) as (Hf & _ & Hframe & _).
  split; [reflexivity |]. split; [| exact Hframe].
  unfold file_bytes at 1. now rewrite Hf.
Qed.

(** C8. When no file exists at the destination and the server answers
    the GET of [download_file], a file exists there afterwards and the
    filesystem has changed, whatever the status; with a status other
    than 200 and 206 the call returns normally and the new file is
    empty. *)
Theorem download_file_creates_file (url path : string) (w : world)
    (resp : response) :
  fs w !! path = None ->
  responds http url path w resp ->
  (exists c, fs (snd (download_file http url path w)) !! path = Some (File c))
  /\ fs (snd (download_file http url path w)) <> fs w
  /\ (accepted resp = false ->
      fst (download_file http url path w) = Ok tt
      /\ fs (snd (download_file http url path w)) !! path = Some (File [])).
Proof.
  intros Hnone Hr.
  destruct (responds_inv _ _ _ _ Hr) as (w1 & Hopen & _ & Hrun).
  destruct (open_append_file _ _ _ _ Hopen) as (Hf & _ & _ & _).
  unfold file_bytes in Hf. rewrite Hnone in Hf.
  assert (Hex : exists c,
             fs (snd (download_file http url path w)) !! path = Some (File c)).
  { rewrite Hrun. destruct (accepted resp).
    - destruct (write_stream_appends path resp
                  {| fs := fs w1;
                     sent := sent w ++ [range_get url
                               (length (file_bytes (fs w) path))] |}
                  [] Hf) as (r & data & -> & _).
      simpl. rewrite lookup_insert_eq. eauto.
    - simpl. eauto. }
  split; [exact Hex |]. split.
  - destruct Hex as [c Hc]. intros Heq. rewrite Heq, Hnone in Hc.
    discriminate Hc.
  - intros Ha. rewrite Hrun, Ha. simpl. split; [reflexivity | exact Hf].
Qed.


End Fetcher.

Lemma download_with_check_noop_witness :
  download_with_check no_network "u"
    "a9993e364706816aba3e25717850c26c9cd0d89d" "f" (one_file "f" (bytes "abc"))
  = (Ok tt, one_file "f" (bytes "abc")).
Proof.
  apply (download_with_check_noop no_network "u" _ "f" _ (bytes "abc")).
  - apply lookup_singleton_eq.
  - vm_compute. reflexivity.
Defined.

Lemma responds_not_found :
  responds (always 404 "gone") "u" "f" empty_world not_found.
Proof. exists O. split; reflexivity. Defined.

Lemma download_file_ignores_status_witness :
  fst (download_file (always 404 "gone") "u" "f" empty_world) = Ok tt
  /\ file_bytes
       (fs (snd (download_file (always 404 "gone") "u" "f" empty_world))) "f"
     = file_bytes (fs empty_world) "f"
  /\ forall p, p <> "f" ->
       fs (snd (download_file (always 404 "gone") "u" "f" empty_world)) !! p
       = fs empty_world !! p.
Proof.
  apply (download_file_ignores_status (always 404 "gone") "u" "f"
           empty_world not_found).
  - exact responds_not_found.
  - discriminate.
  - discriminate.
Defined.

Lemma download_file_creates_file_witness :
  (exists c,
      fs (snd (download_file (always 404 "gone") "u" "f" empty_world)) !! "f"
      = Some (File c))
  /\ fs (snd (download_file (always 404 "gone") "u" "f" empty_world))
     <> fs empty_world
  /\ (accepted not_found = false ->
      fst (download_file (always 404 "gone") "u" "f" empty_world) = Ok tt
      /\ fs (snd (download_file (always 404 "gone") "u" "f" empty_world))
         !! "f" = Some (File [])).
Proof.
  apply (download_file_creates_file (always 404 "gone") "u" "f"
           empty_world not_found).
  - reflexivity.
  - exact responds_not_found.
Defined.



(** ** The zip extractor and the [icrp107] assembler *)

Section Assembler.

Variable http : list request -> request -> option response.
Variable unzip : list byte -> option (gmap string (list byte)).

(** A successful extraction read the member from the archive on disk and
    left it, alone, in the output file. *)
Lemma extract_file_from_zip_ok (path zip_file output_file : string)
    (w w' : world) :
  extract_file_from_zip unzip path zip_file output_file w = (Ok tt, w') ->
  exists bs z member,
    fs w !! zip_file = Some (File bs)
    /\ unzip bs = Some z
    /\ z !! path = Some member
    /\ fs w' = <[output_file := File member]> (fs w).
Proof.
  unfold extract_file_from_zip, zip_open. intros H.
  apply bind_ok in H as (z0 & w1 & Hz & H).
  apply bind_ok in Hz as (bs0 & w0 & Hread & Hz).
  unfold read_file in Hread.
  destruct (fs w !! zip_file) as [[bs |] |] eqn:Hzip; try discriminate.
  injection Hread as <- <-.
  destruct (unzip bs) as [z |] eqn:Hun; [| discriminate].
  injection Hz as <- <-.
  destruct (z !! path) as [member |] eqn:Hmem; [| discriminate].
  apply bind_ok in H as ([] & w2 & Hopen & H).
  destruct (String.eqb output_file zip_file); [discriminate |].
  exists bs, z, member. repeat split; try assumption.
  assert (Hw2 : fs w2 = <[output_file := File []]> (fs w)).
  { unfold open_write in Hopen.
    destruct (fs w !! output_file) as [[c |] |];
      [| discriminate | destruct (is_dir (fs w) (dirname output_file))];
      try discriminate; now injection Hopen as <-. }
  unfold write in H. rewrite Hw2, lookup_insert_eq in H.
  injection H as <-. simpl. now rewrite insert_insert_eq.
Qed.

(** The fetcher touches no path but its own, however it ends. *)
Lemma download_file_frame (url path : string) (w : world) (p : string) :
  p <> path ->
  fs (snd (download_file http url path w)) !! p = fs w !! p.
Proof.
  intros Hp. unfold download_file.
  destruct (open_append path w) as [[pos | e] w1] eqn:Hopen.
  - rewrite (bind_step _ _ _ _ _ Hopen).
    destruct (open_append_file _ _ _ _ Hopen) as (Hf & _ & Hframe & _).
    unfold bind, requests_get.
    destruct (http (sent w1) _) as [resp |]; [| now apply Hframe].
    destruct (_ || _)%bool; [| now apply Hframe].
    match goal with
    | |- context [write_stream path 4096000 resp ?w2] =>
        destruct (write_stream_appends path resp w2 _ Hf)
          as (r & data & -> & _)
    end.
    simpl. rewrite lookup_insert_ne by congruence. now apply Hframe.
  - rewrite (bind_raise _ _ _ _ _ Hopen). simpl.
    unfold open_append in Hopen.
    destruct (fs w !! path) as [[c |] |];
      [| | destruct (is_dir (fs w) (dirname path))];
      try discriminate; now injection Hopen as <- <-.
Qed.

Lemma download_with_check_frame (url checksum file : string) (w : world)
    (p : string) :
  p <> file ->
  fs (snd (download_with_check http url checksum file w)) !! p = fs w !! p.
Proof.
  intros Hp. unfold download_with_check, verify_file, bind, read_file.
  destruct (fs w !! file) as [[c |] |]; try reflexivity.
  unfold ret. destruct (negb _); [| reflexivity].
  now apply download_file_frame.
Qed.

Ltac distinct_paths := apply String.eqb_neq; vm_compute; reflexivity.

(** C7. When [icrp107] completes, the index file in [icrp107/] holds the
    bytes of the corrigenda archive's [ICRP-07.NDX] member, and each of
    the four other output files holds the bytes of its member of the base
    archive; the archives are the ones on disk at the end. *)
Theorem icrp107_corrigenda_supersedes (w w' : world) :
  icrp107 http unzip w = (Ok tt, w') ->
  exists base zbase corr zcorr ndx,
    fs w' !! data_file_name = Some (File base)
    /\ unzip base = Some zbase
    /\ fs w' !! corr_file_name = Some (File corr)
    /\ unzip corr = Some zcorr
    /\ zcorr !! corr_member = Some ndx
    /\ fs w' !! "icrp107/ICRP-07.NDX" = Some (File ndx)
    /\ Forall (fun file =>
                 exists member,
                   zbase !! (base_path +:+ file) = Some member
                   /\ fs w' !! (base_output_path +:+ file)
                      = Some (File member))
              ["ICRP-07.RAD"; "ICRP-07.BET"; "ICRP-07.NSF"; "ICRP-07.ACK"].
Proof.
  unfold icrp107, icrp_files. cbn [for_each]. intros H.
  apply bind_ok in H as ([] & w1 & _ & H).
  apply bind_ok in H as ([] & w6 & Hbase & H).
  apply bind_ok in H as ([] & w7 & Hcorr & H).
  apply bind_ok in Hbase as ([] & w2 & E1 & Hbase).
  apply bind_ok in Hbase as ([] & w3 & E2 & Hbase).
  apply bind_ok in Hbase as ([] & w4 & E3 & Hbase).
  apply bind_ok in Hbase as ([] & w5 & E4 & Hbase).
  apply bind_ok in Hbase as ([] & w6' & E5 & Hbase).
  injection Hbase as ->.
  apply extract_file_from_zip_ok in E1 as (b1 & z1 & m1 & D1 & U1 & M1 & F1).
  apply extract_file_from_zip_ok in E2 as (b2 & z2 & m2 & D2 & U2 & M2 & F2).
  apply extract_file_from_zip_ok in E3 as (b3 & z3 & m3 & D3 & U3 & M3 & F3).
  apply extract_file_from_zip_ok in E4 as (b4 & z4 & m4 & D4 & U4 & M4 & F4).
  apply extract_file_from_zip_ok in E5 as (b5 & z5 & m5 & D5 & U5 & M5 & F5).
  apply extract_file_from_zip_ok in H as (bc & zc & ndx & Dc & Uc & Mc & Fc).
  assert (Hframe : forall p, p <> corr_file_name -> fs w7 !! p = fs w6 !! p).
  { intros p Hp.
    pose proof (download_with_check_frame corr_url corr_checksum
                  corr_file_name w6 p Hp) as Hf.
    now rewrite Hcorr in Hf. }
  (* the base archive is the same file at each extraction *)
  rewrite F1, lookup_insert_ne in D2 by distinct_paths.
  rewrite D1 in D2. injection D2 as <-.
  rewrite F2, lookup_insert_ne, F1, lookup_insert_ne in D3
    by distinct_paths.
  rewrite D1 in D3. injection D3 as <-.
  rewrite F3, lookup_insert_ne, F2, lookup_insert_ne, F1, lookup_insert_ne
    in D4 by distinct_paths.
  rewrite D1 in D4. injection D4 as <-.
  rewrite F4, lookup_insert_ne, F3, lookup_insert_ne, F2, lookup_insert_ne,
    F1, lookup_insert_ne in D5 by distinct_paths.
  rewrite D1 in D5. injection D5 as <-.
  rewrite U1 in U2, U3, U4, U5.
  injection U2 as <-. injection U3 as <-.
  injection U4 as <-. injection U5 as <-.
  exists b1, z1, bc, zc, ndx.
  assert (Hend : forall p,
             p <> base_output_path +:+ "ICRP-07.NDX" ->
             p <> corr_file_name ->
             fs w' !! p = fs w6 !! p).
  { intros p Hp1 Hp2.
    rewrite Fc, lookup_insert_ne by (intros E; now apply Hp1).
    now apply Hframe. }
  repeat split; try assumption.
  - rewrite Hend by distinct_paths.
    rewrite F5, lookup_insert_ne, F4, lookup_insert_ne, F3, lookup_insert_ne,
      F2, lookup_insert_ne, F1, lookup_insert_ne by distinct_paths.
    exact D1.
  - rewrite Fc, lookup_insert_ne by distinct_paths. exact Dc.
  - rewrite Fc. apply lookup_insert_eq.
  - repeat constructor.
    + exists m2. split; [exact M2 |].
      rewrite Hend by distinct_paths.
      rewrite F5, lookup_insert_ne, F4, lookup_insert_ne, F3, lookup_insert_ne,
        F2 by distinct_paths.
      apply lookup_insert_eq.
    + exists m3. split; [exact M3 |].
      rewrite Hend by distinct_paths.
      rewrite F5, lookup_insert_ne, F4, lookup_insert_ne, F3
        by distinct_paths.
      apply lookup_insert_eq.
    + exists m4. split; [exact M4 |].
      rewrite Hend by distinct_paths.
      rewrite F5, lookup_insert_ne, F4 by distinct_paths.
      apply lookup_insert_eq.
    + exists m5. split; [exact M5 |].
      rewrite Hend by distinct_paths.
      rewrite F5. apply lookup_insert_eq.
Qed.

End Assembler.

Lemma icrp107_sample_run :
  icrp107 (always 416 "") sample_unzip sample_world = (Ok tt, sample_end).
Proof.
  apply injective_projections; [vm_compute; reflexivity | reflexivity].
Defined.

Lemma icrp107_corrigenda_supersedes_witness :
  exists base zbase corr zcorr ndx,
    fs sample_end !! data_file_name = Some (File base)
    /\ sample_unzip base = Some zbase
    /\ fs sample_end !! corr_file_name = Some (File corr)
    /\ sample_unzip corr = Some zcorr
    /\ zcorr !! corr_member = Some ndx
    /\ fs sample_end !! "icrp107/ICRP-07.NDX" = Some (File ndx)
    /\ Forall (fun file =>
                 exists member,
                   zbase !! (base_path +:+ file) = Some member
                   /\ fs sample_end !! (base_output_path +:+ file)
                      = Some (File member))
              ["ICRP-07.RAD"; "ICRP-07.BET"; "ICRP-07.NSF"; "ICRP-07.ACK"].
Proof.
  apply (icrp107_corrigenda_supersedes (always 416 "") sample_unzip
           sample_world sample_end).
  exact icrp107_sample_run.
Defined.

Example icrp107_sample_index :
  fs sample_end !! "icrp107/ICRP-07.NDX"
  = Some (File (bytes "corrected index"))
  /\ fs sample_end !! "icrp107/ICRP-07.RAD"
     = Some (File (bytes "base ICRP-07.RAD")).
Proof. split; vm_compute; reflexivity. Qed.

(** ** The selector *)

(** C9. With the flag [--dataset] present and no value after it,
    [args.dataset] is the empty list: nothing is selected, [main]
    returns normally without touching the world and the exit status is 0.
    The default, the string [all], is what [parse_args] returns exactly
    when the flag is absent, and it selects every dataset. *)
Theorem empty_dataset_flag_runs_nothing
    (http : list request -> request -> option response)
    (unzip : list byte -> option (gmap string (list byte))) (w : world) :
  parse_args (Flag []) w = (Ok (ArgList []), w)
  /\ datasets (ArgList []) = []
  /\ main http unzip (Flag []) w = (Ok tt, w)
  /\ exit_code (fst (main http unzip (Flag []) w)) = 0%Z
  /\ (forall c w1, parse_args c w = (Ok (ArgStr "all"), w1) <-> (c = NoFlag /\ w1 = w))
  /\ datasets (ArgStr "all") = all_datasets.
Proof.
  repeat split; try reflexivity.
  - destruct c as [| values]; [reflexivity |].
    simpl in H. destruct (forallb _ values); discriminate H.
  - destruct c as [| values]; [now injection H |].
    simpl in H. destruct (forallb _ values); discriminate H.
  - intros [-> ->]. reflexivity.
Qed.

(** With the flag absent both assemblers run, in the order of
    [all_datasets]. *)
Lemma main_default
    (http : list request -> request -> option response)
    (unzip : list byte -> option (gmap string (list byte))) (w : world) :
  main http unzip NoFlag w
  = (run icrp107 http unzip ;;
     run nist_mass_attenuation_coefficient http ;;
     ret tt) w.
Proof. reflexivity. Qed.

(** ** The patterns

    Each pattern, printed, is the raw string of the source. *)

Example table_re_pattern : Text.pattern table_re = "<TABLE.*>.*</TABLE>".
Proof. reflexivity. Qed.

Example tr_re_pattern : Text.pattern tr_re = "<TR>(.*?)</TR>".
Proof. reflexivity. Qed.

Example td_re_pattern : Text.pattern td_re = "<TD.*?>(.*?)</TD>".
Proof. reflexivity. Qed.

Example pre_re_pattern :
  Text.pattern pre_re = "(?:<PRE>)((\r|\n|.)*)(?:</PRE>)".
Proof. reflexivity. Qed.

Example triple_re_pattern :
  Text.pattern triple_re = "(\d\.\d+?E[+-]\d{2}\s+){3}".
Proof. reflexivity. Qed.

(** The matcher on small texts: a lazy star stops at the first closing
    tag, a greedy one at the last, and alternatives are tried in order. *)
Example lazy_rows :
  re_findall tr_re "<TR>a</TR> <TR>b</TR>" = ["a"; "b"].
Proof. reflexivity. Qed.

Example greedy_table :
  option_map group0 (re_search table_re "x<TABLE>a</TABLE>b</TABLE>c")
  = Some "<TABLE>a</TABLE>b</TABLE>".
Proof. reflexivity. Qed.

Example cell_attributes :
  re_findall td_re "<TD align=left> 1 </TD><TD>&nbsp;</TD>"
  = [" 1 "; "&nbsp;"].
Proof. reflexivity. Qed.

Example two_triples :
  map (fun m => split (group0 m))
      (re_finditer triple_re "1.0E+00 2.00E-01  3.5E+10 4.0E+00 5.0E+00 6.0E+00 ")
  = [["1.0E+00"; "2.00E-01"; "3.5E+10"]; ["4.0E+00"; "5.0E+00"; "6.0E+00"]].
Proof. reflexivity. Qed.

Example strip_and_replace :
  strip "  a b  " = "a b"
  /\ replace "ab" "-" "abcabab" = "-c--"
  /\ split " a  b c " = ["a"; "b"; "c"].
Proof. repeat split. Qed.

(** ** The scrapers on the sample pages *)

(** C4. On a page whose body is the sample [PRE] block the pattern of
    data rows matches once, on the first three numbers; the table is the
    two header rows and the one triple, and [nist_elemental_media]
    returns its three formatted lines. *)
Theorem nist_elemental_media_sample
    (http : list request -> request -> option response) (z : nat)
    (w : world) (resp : response) :
  http (sent w) (plain_get (base_url z)) = Some resp ->
  resp_text resp = sample_pre_page ->
  map group0 (re_finditer triple_re sample_pre_page)
  = ["1.000E-03 1.000E+01 2.000E+01 "]
  /\ media_table (resp_text resp)
     = Some (media_header ++ [["1.000E-03"; "1.000E+01"; "2.000E+01"]])
  /\ nist_elemental_media http z w
     = (Ok (lines ["Energy      mu/rho      mu_en/rho   ";
                   "(MeV)       (cm2/g)     (cm2/g)     ";
                   "1.000E-03   1.000E+01   2.000E+01   "]),
        {| fs := fs w; sent := sent w ++ [plain_get (base_url z)] |}).
Proof.
  intros Hhttp Htext. split; [vm_compute; reflexivity |].
  assert (Htable : media_table (resp_text resp)
                   = Some (media_header
                           ++ [["1.000E-03"; "1.000E+01"; "2.000E+01"]])).
  { rewrite Htext. vm_compute. reflexivity. }
  split; [exact Htable |].
  unfold nist_elemental_media, bind, requests_get.
  rewrite Hhttp, Htable. reflexivity.
Qed.

(** C5. On a page whose body is the sample table the first three rows
    are discarded and one data row remains after the two header rows;
    [nist_material_constants] returns the three rows, each as six
    left-justified fields padded with spaces to 4, 8, 18, 10, 10 and 10
    characters. *)
Theorem nist_material_constants_sample
    (http : list request -> request -> option response)
    (w : world) (resp : response) :
  http (sent w) (plain_get materials_url) = Some resp ->
  resp_text resp = sample_table_page ->
  re_findall tr_re sample_table_page
  = ["h1"; "h2"; "h3";
     "<TD>1</TD><TD>H</TD><TD>Hydrogen</TD><TD>0.5</TD><TD>19.2</TD><TD>8.4e-5</TD>"]
  /\ material_table (resp_text resp)
     = Some (material_header
             ++ [["1"; "H"; "Hydrogen"; "0.5"; "19.2"; "8.4e-5"]])
  /\ nist_material_constants http w
     = (Ok (lines
              ["Z   Symbol  Element           Z/A       I         Density   ";
               "                                        (eV)      (g/cm3)   ";
               "1   H       Hydrogen          0.5       19.2      8.4e-5    "]),
        {| fs := fs w; sent := sent w ++ [plain_get materials_url] |}).
Proof.
  intros Hhttp Htext. split; [vm_compute; reflexivity |].
  assert (Htable : material_table (resp_text resp)
                   = Some (material_header
                           ++ [["1"; "H"; "Hydrogen"; "0.5"; "19.2";
                                "8.4e-5"]])).
  { rewrite Htext. vm_compute. reflexivity. }
  split; [exact Htable |].
  unfold nist_material_constants, bind, requests_get.
  rewrite Hhttp, Htable. reflexivity.
Qed.

Lemma nist_elemental_media_sample_witness :
  map group0 (re_finditer triple_re sample_pre_page)
  = ["1.000E-03 1.000E+01 2.000E+01 "]
  /\ media_table sample_pre_page
     = Some (media_header ++ [["1.000E-03"; "1.000E+01"; "2.000E+01"]])
  /\ nist_elemental_media (always 200 sample_pre_page) 1 empty_world
     = (Ok (lines ["Energy      mu/rho      mu_en/rho   ";
                   "(MeV)       (cm2/g)     (cm2/g)     ";
                   "1.000E-03   1.000E+01   2.000E+01   "]),
        {| fs := ∅; sent := [plain_get (base_url 1)] |}).
Proof.
  exact (nist_elemental_media_sample (always 200 sample_pre_page) 1
           empty_world _ eq_refl eq_refl).
Defined.

Lemma nist_material_constants_sample_witness :
  re_findall tr_re sample_table_page
  = ["h1"; "h2"; "h3";
     "<TD>1</TD><TD>H</TD><TD>Hydrogen</TD><TD>0.5</TD><TD>19.2</TD><TD>8.4e-5</TD>"]
  /\ material_table sample_table_page
     = Some (material_header
             ++ [["1"; "H"; "Hydrogen"; "0.5"; "19.2"; "8.4e-5"]])
  /\ nist_material_constants (always 200 sample_table_page) empty_world
     = (Ok (lines
              ["Z   Symbol  Element           Z/A       I         Density   ";
               "                                        (eV)      (g/cm3)   ";
               "1   H       Hydrogen          0.5       19.2      8.4e-5    "]),
        {| fs := ∅; sent := [plain_get materials_url] |}).
Proof.
  exact (nist_material_constants_sample (always 200 sample_table_page)
           empty_world _ eq_refl eq_refl).
Defined.

(** ** Fixed-width serialization *)


Lemma append_cons (a : ascii) (s t : string) :
  String a s +:+ t = String a (s +:+ t).
Proof. reflexivity. Qed.

Lemma append_empty_r (s : string) : s +:+ "" = s.
Proof.
  induction s as [| a s IH]; [reflexivity |].
  now rewrite append_cons, IH.
Qed.





Lemma pad_field_overflow (w : nat) (c : string) :
  (w <= String.length c)%nat -> pad_field w c = c.
Proof.
  intros H. unfold pad_field.
  replace (w - String.length c)%nat with O by lia. apply append_empty_r.
Qed.





Lemma format_row_enough (widths : list nat) :
  forall (row : list string) (line : string),
    format_row widths row = Some line ->
    (length widths <= length row)%nat.
Proof.
  induction widths as [| w ws IH]; intros row line H; simpl in *; [lia |].
  destruct row as [| c row]; [discriminate |].
  destruct (format_row ws row) as [rest |] eqn:E; [| discriminate].
  specialize (IH _ _ E). simpl. lia.
Qed.

(** A row with enough cells always formats. *)
Lemma format_row_total (widths : list nat) :
  forall row : list string,
    (length widths <= length row)%nat ->
    exists line, format_row widths row = Some line.
Proof.
  induction widths as [| w ws IH]; intros row H; simpl; [eauto |].
  destruct row as [| c row]; simpl in H; [lia |].
  destruct (IH row) as [rest ->]; [lia |]. eauto.
Qed.





(** The long cell is not cut, and the line is six characters longer than
    the sixty of the nominal layout. *)
Example long_line_length :
  format_row material_widths long_row = Some long_line
  /\ String.length long_line = 66%nat
  /\ list_sum material_widths = 60%nat
  /\ field_offset material_widths long_row 3 = 36%nat.
Proof. repeat split. Qed.

(** ** What the patterns match *)

Lemma first_seq (r1 r2 : regex) (cap : captures) (s : chars)
    (o1 o2 : outcome) :
  first_outcome (matches r1 cap s) o1 ->
  first_outcome (matches r2 (fst o1) (snd o1)) o2 ->
  first_outcome (matches (Seq r1 r2) cap s) o2.
Proof.
  intros [tl1 H1] [tl2 H2]. cbn [matches]. rewrite H1. cbn [flat_map].
  rewrite H2. eexists. reflexivity.
Qed.

Lemma matches_chr (cl : char_class) (cap : captures) (a : ascii)
    (s : chars) :
  in_class cl a = true -> matches (Chr cl) cap (a :: s) = [(cap, s)].
Proof. intros H. cbn [matches]. now rewrite H. Qed.

Lemma matches_lits (p : string) :
  forall (cap : captures) (s : chars),
    matches (Lits p) cap s
    = if starts_with (list_ascii_of_string p) s
      then [(cap, skipn (String.length p) s)]
      else [].
Proof.
  induction p as [| a p IH]; intros cap s; [reflexivity |].
  cbn [Lits matches list_ascii_of_string starts_with String.length].
  destruct s as [| b s]; [reflexivity |].
  cbn [in_class skipn]. rewrite (Ascii.eqb_sym b a).
  destruct (Ascii.eqb a b); [| reflexivity].
  cbn [flat_map fst snd andb]. rewrite IH, app_nil_r. reflexivity.
Qed.

Lemma star_lazy_any (fuel : nat) :
  forall (cap : captures) (s : chars),
    (length s <= fuel)%nat ->
    star (matches (Chr CAny)) false fuel cap s
    = map (pair cap) (lazy_tails s).
Proof.
  induction fuel as [| f IH]; intros cap s Hlen.
  - destruct s; [reflexivity | simpl in Hlen; lia].
  - cbn [star]. destruct s as [| a t]; [reflexivity |].
    cbn [matches lazy_tails map]. f_equal.
    destruct (in_class CAny a); [| reflexivity].
    cbn [flat_map fst snd].
    replace (length t <? length (a :: t))%nat with true
      by (symmetry; apply Nat.ltb_lt; simpl; lia).
    rewrite app_nil_r. apply IH. simpl in Hlen. lia.
Qed.

Lemma matches_lazy_any (cap : captures) (s : chars) :
  matches (Star false (Chr CAny)) cap s = map (pair cap) (lazy_tails s).
Proof. cbn [matches]. now apply star_lazy_any. Qed.

(** A continuation that fails on every text starting inside [c] is first
    tried with success after [c]. *)
Lemma flat_map_lazy_tails {B} (F : chars -> list B) (ok : ascii -> bool)
    (c u : chars) :
  (forall a t, ok a = true -> F (a :: t) = []) ->
  forallb (fun a => in_class CAny a && ok a) c = true ->
  flat_map F (lazy_tails (c ++ u)) = flat_map F (lazy_tails u).
Proof.
  intros HF. induction c as [| a c IH]; intros Hc; [reflexivity |].
  cbn [forallb] in Hc. apply andb_true_iff in Hc as [Ha Hc].
  apply andb_true_iff in Ha as [Hany Hok].
  change ((a :: c) ++ u) with (a :: (c ++ u)).
  cbn [lazy_tails]. rewrite Hany. cbn [flat_map].
  rewrite (HF a _ Hok). now apply IH.
Qed.

Lemma consumed_app (p r : chars) : consumed (p ++ r) r = p.
Proof.
  unfold consumed. rewrite length_app.
  replace (length p + length r - length r)%nat with (length p) by lia.
  rewrite firstn_app, firstn_all, Nat.sub_diag. cbn [firstn].
  apply app_nil_r.
Qed.

Lemma matches_seq (r1 r2 : regex) (cap : captures) (s : chars) :
  matches (Seq r1 r2) cap s
  = flat_map (fun o : outcome => matches r2 (fst o) (snd o))
      (matches r1 cap s).
Proof. reflexivity. Qed.

Lemma matches_group (i : nat) (r : regex) (cap : captures) (s : chars) :
  matches (Group i r) cap s
  = map (fun o : outcome => ((i, consumed s (snd o)) :: fst o, snd o))
      (matches r cap s).
Proof. reflexivity. Qed.

Lemma flat_map_map {A B C} (f : B -> list C) (g : A -> B) (l : list A) :
  flat_map f (map g l) = flat_map (fun x => f (g x)) l.
Proof.
  induction l as [| x l IH]; simpl; [reflexivity | now rewrite IH].
Qed.

Lemma lazy_tails_head (u : chars) : exists tl, lazy_tails u = u :: tl.
Proof. destruct u; cbn [lazy_tails]; eexists; reflexivity. Qed.

(** A lazy [.*?] before a continuation [K] that cannot start inside [c]:
    the first match of the sequence on [c ++ u] is the first match of
    [K] on [u]. *)
Lemma first_lazy_any_seq (K : regex) (ok : ascii -> bool)
    (cap : captures) (c u : chars) (o : outcome) :
  (forall cap' a t, ok a = true -> matches K cap' (a :: t) = []) ->
  forallb (fun a => in_class CAny a && ok a) c = true ->
  first_outcome (matches K cap u) o ->
  first_outcome (matches (Seq (Star false (Chr CAny)) K) cap (c ++ u)) o.
Proof.
  intros HK Hc [tl Ho].
  rewrite matches_seq, matches_lazy_any, flat_map_map. cbn [fst snd].
  rewrite (flat_map_lazy_tails _ ok c u); [| now intros; apply HK | exact Hc].
  destruct (lazy_tails_head u) as [tl' ->]. cbn [flat_map].
  rewrite Ho. eexists. reflexivity.
Qed.

(** The same inside a capturing group, which then holds [c]. *)
Lemma first_group_lazy_any_seq (i : nat) (K : regex) (ok : ascii -> bool)
    (cap : captures) (c u : chars) (o : outcome) :
  (forall cap' a t, ok a = true -> matches K cap' (a :: t) = []) ->
  forallb (fun a => in_class CAny a && ok a) c = true ->
  first_outcome (matches K ((i, c) :: cap) u) o ->
  first_outcome
    (matches (Seq (Group i (Star false (Chr CAny))) K) cap (c ++ u)) o.
Proof.
  intros HK Hc [tl Ho].
  rewrite matches_seq, matches_group, matches_lazy_any, !flat_map_map.
  cbn [fst snd].
  rewrite (flat_map_lazy_tails _ ok c u); [| now intros; apply HK | exact Hc].
  destruct (lazy_tails_head u) as [tl' ->]. cbn [flat_map].
  rewrite consumed_app, Ho. eexists. reflexivity.
Qed.

(** *** Table cells *)

Lemma plain_char_any (a : ascii) :
  plain_char a = true ->
  in_class CAny a && negb (Ascii.eqb a "<") = true.
Proof.
  unfold plain_char. cbn [in_class]. intros H.
  apply andb_true_iff in H as [H1 H2]. now rewrite H1, H2.
Qed.

(** The closing tag does not match on a character other than [<]. *)
Lemma close_fails (cap : captures) (a : ascii) (t : chars) :
  negb (Ascii.eqb a "<") = true ->
  matches (Lits "</TD>") cap (a :: t) = [].
Proof.
  intros H. rewrite matches_lits. cbn [list_ascii_of_string starts_with].
  rewrite (Ascii.eqb_sym "<" a). apply negb_true_iff in H. now rewrite H.
Qed.

(** At the start of a cell's markup the pattern matches that cell: the
    group is the text up to the first closing tag. *)
Lemma match_td_cell (c rest : chars) :
  forallb plain_char c = true ->
  match_at td_re (td_open ++ c ++ td_close ++ rest)
  = Some {| m_text := td_open ++ c ++ td_close;
            m_groups := [(1%nat, c)];
            m_rest := rest |}.
Proof.
  intros Hc.
  assert (H : first_outcome
                (matches td_re [] (td_open ++ c ++ td_close ++ rest))
                ([(1%nat, c)], rest)).
  { unfold td_re.
    apply first_seq with (o1 := ([], (">"%char :: c ++ td_close ++ rest))).
    { rewrite matches_lits. eexists. reflexivity. }
    apply (first_lazy_any_seq _ (fun _ => false) [] []); [| reflexivity |].
    { intros cap a t Ha. discriminate Ha. }
    apply first_seq with (o1 := ([], c ++ td_close ++ rest)).
    { rewrite matches_chr by reflexivity. eexists. reflexivity. }
    apply (first_group_lazy_any_seq _ _ (fun a => negb (Ascii.eqb a "<"))).
    - intros cap a t Ha. now apply close_fails.
    - clear -Hc. induction c as [| a c IH]; [reflexivity |].
      cbn [forallb] in *. apply andb_true_iff in Hc as [Ha Hc].
      now rewrite (plain_char_any a Ha), (IH Hc).
    - rewrite matches_lits. eexists. reflexivity. }
  destruct H as [tl H]. unfold match_at. rewrite H. f_equal.
  replace (td_open ++ c ++ td_close ++ rest)
    with ((td_open ++ c ++ td_close) ++ rest)
    by (now rewrite <- !app_assoc).
  now rewrite consumed_app.
Qed.

Lemma search_from_hit (r : regex) (s : chars) (m : rmatch) :
  match_at r s = Some m -> search_from r s = Some m.
Proof. intros H. destruct s; cbn [search_from]; now rewrite H. Qed.

Lemma render_cells_length (cells : list chars) :
  (length cells <= length (render_cells cells))%nat.
Proof.
  induction cells as [| c cells IH]; [reflexivity |].
  cbn [render_cells]. rewrite !length_app. simpl. lia.
Qed.

(** Scanning the markup of a row finds its cells, one match each. *)
Lemma scan_td_cells (cells : list chars) :
  forall fuel : nat,
    (length cells < fuel)%nat ->
    forallb (forallb plain_char) cells = true ->
    map (group 1) (scan fuel td_re (render_cells cells))
    = map string_of_list_ascii cells.
Proof.
  induction cells as [| c cells IH]; intros fuel Hfuel Hplain;
    (destruct fuel as [| f]; [simpl in Hfuel; lia |]).
  - reflexivity.
  - cbn [forallb] in Hplain. apply andb_true_iff in Hplain as [Hc Hcells].
    cbn [scan render_cells].
    rewrite (search_from_hit _ _ _ (match_td_cell c _ Hc)).
    cbn [m_text m_rest td_open list_ascii_of_string app map].
    f_equal. apply IH; [simpl in Hfuel; lia | exact Hcells].
Qed.

Lemma list_ascii_of_append (a b : string) :
  list_ascii_of_string (a +:+ b)
  = list_ascii_of_string a ++ list_ascii_of_string b.
Proof.
  induction a as [| x a IH]; [reflexivity |].
  rewrite append_cons. cbn [list_ascii_of_string app]. now rewrite IH.
Qed.

Lemma render_row_chars (cells : list string) :
  list_ascii_of_string (render_row cells)
  = render_cells (map list_ascii_of_string cells).
Proof.
  induction cells as [| c cells IH]; [reflexivity |].
  cbn [render_row render_cells map].
  now rewrite !list_ascii_of_append, IH.
Qed.

(** On the markup of a row of plain cells, [findall] returns the cells
    as they are written, whitespace included. *)
Lemma findall_td_render_row (cells : list string) :
  forallb plain_cell cells = true ->
  re_findall td_re (render_row cells) = cells.
Proof.
  intros Hplain. unfold re_findall, re_finditer.
  rewrite render_row_chars, scan_td_cells.
  - rewrite map_map. rewrite <- (map_id cells) at 2.
    apply map_ext. intros c. apply string_of_list_ascii_of_string.
  - pose proof (render_cells_length (map list_ascii_of_string cells)). lia.
  - clear -Hplain. induction cells as [| c cells IH]; [reflexivity |].
    cbn [forallb map] in *. apply andb_true_iff in Hplain as [Hc Hcells].
    unfold plain_cell in Hc. now rewrite Hc, IH.
Qed.

(** C6, as amended. The cells kept from a row are the texts captured
    between the cell tags that are not exactly the placeholder, compared
    before trimming, and each is trimmed afterwards.  In a row of cells
    written between [<TD>] and [</TD>], none of them with a [<] or a
    newline, the captured texts are the cells as written; so a cell is
    dropped if and only if its untrimmed text is the placeholder. *)
Theorem row_cells_drops_exact_placeholder (cells : list string) :
  forallb plain_cell cells = true ->
  (forall row,
      row_cells row
      = map strip
          (List.filter (fun c => negb (String.eqb c nbsp))
                       (re_findall td_re row)))
  /\ re_findall td_re (render_row cells) = cells
  /\ row_cells (render_row cells)
     = map strip (List.filter (fun c => negb (String.eqb c nbsp)) cells)
  /\ forall c, In c cells ->
       (row_cells (render_row [c]) = [] <-> c = nbsp)
       /\ (c <> nbsp -> row_cells (render_row [c]) = [strip c]).
Proof.
  intros Hplain. pose proof (findall_td_render_row cells Hplain) as Hall.
  split; [reflexivity |]. split; [exact Hall |]. split.
  - unfold row_cells. now rewrite Hall.
  - intros c Hin.
    assert (Hc : forallb plain_cell [c] = true).
    { cbn [forallb]. rewrite andb_true_r.
      rewrite forallb_forall in Hplain. now apply Hplain. }
    unfold row_cells. rewrite (findall_td_render_row [c] Hc).
    cbn [List.filter]. destruct (String.eqb_spec c nbsp) as [-> | Hne];
      cbn [negb map].
    + split; [split; reflexivity | intros H; now contradiction H].
    + split; [split; [discriminate | intros H; now contradiction Hne] |].
      reflexivity.
Qed.

Lemma row_cells_drops_exact_placeholder_witness :
  (forall row,
      row_cells row
      = map strip
          (List.filter (fun c => negb (String.eqb c nbsp))
                       (re_findall td_re row)))
  /\ re_findall td_re (render_row ["1"; " &nbsp; "; "&nbsp;"; " H "])
     = ["1"; " &nbsp; "; "&nbsp;"; " H "]
  /\ row_cells (render_row ["1"; " &nbsp; "; "&nbsp;"; " H "])
     = map strip
         (List.filter (fun c => negb (String.eqb c nbsp))
                      ["1"; " &nbsp; "; "&nbsp;"; " H "])
  /\ forall c, In c ["1"; " &nbsp; "; "&nbsp;"; " H "] ->
       (row_cells (render_row [c]) = [] <-> c = nbsp)
       /\ (c <> nbsp -> row_cells (render_row [c]) = [strip c]).
Proof.
  apply (row_cells_drops_exact_placeholder
           ["1"; " &nbsp; "; "&nbsp;"; " H "]).
  reflexivity.
Defined.

(** C6, counterexample. A cell holding the placeholder between two
    spaces trims to the placeholder and is kept, as the placeholder
    itself; only the cell that is exactly the placeholder is dropped. *)
Lemma padded_placeholder_is_kept :
  re_findall td_re "<TD>1</TD><TD> &nbsp; </TD><TD>&nbsp;</TD><TD>H</TD>"
  = ["1"; " &nbsp; "; "&nbsp;"; "H"]
  /\ strip " &nbsp; " = nbsp
  /\ row_cells "<TD>1</TD><TD> &nbsp; </TD><TD>&nbsp;</TD><TD>H</TD>"
     = ["1"; "&nbsp;"; "H"]
  /\ material_table padded_placeholder_page
     = Some (material_header ++ [["1"; "&nbsp;"; "H"]]).
Proof. repeat split; vm_compute; reflexivity. Qed.

(** * Further properties of the script *)

(** ** The zip extractor *)

Section Extractor.

Variable unzip : list byte -> option (gmap string (list byte)).

(** X1. When the archive on disk does not hold the member asked for,
    [extract_file_from_zip] raises [KeyError] and leaves the world as it
    was: the output file is neither created nor emptied. *)
Theorem extract_missing_member (path zip_file output_file : string)
    (w : world) (bs : list byte) (z : gmap string (list byte)) :
  fs w !! zip_file = Some (File bs) ->
  unzip bs = Some z ->
  z !! path = None ->
  extract_file_from_zip unzip path zip_file output_file w
  = (Raise KeyError, w).
Proof.
  intros Hzip Hun Hmem.
  unfold extract_file_from_zip, zip_open, bind, read_file.
  rewrite Hzip, Hun. unfold ret. rewrite Hmem. reflexivity.
Qed.

Lemma open_write_ok (path : string) (w : world) :
  (exists c, fs w !! path = Some (File c))
  \/ (fs w !! path = None /\ is_dir (fs w) (dirname path) = true) ->
  open_write path w = (Ok tt, set_fs w (<[path := File []]> (fs w))).
Proof.
  unfold open_write. intros [[c ->] | [-> ->]]; reflexivity.
Qed.


Lemma extract_run (path zip_file output_file : string) (w : world)
    (bs : list byte) (z : gmap string (list byte)) (member : list byte) :
  fs w !! zip_file = Some (File bs) ->
  unzip bs = Some z ->
  z !! path = Some member ->
  output_file <> zip_file ->
  (exists c, fs w !! output_file = Some (File c))
  \/ (fs w !! output_file = None
      /\ is_dir (fs w) (dirname output_file) = true) ->
  extract_file_from_zip unzip path zip_file output_file w
  = (Ok tt, set_fs w (<[output_file := File member]> (fs w))).
Proof.
  intros Hzip Hun Hmem Hne Hout.
  unfold extract_file_from_zip, zip_open, bind, read_file.
  rewrite Hzip, Hun. unfold ret. rewrite Hmem.
  rewrite (open_write_ok _ _ Hout).
  apply String.eqb_neq in Hne. rewrite Hne.
  unfold write. cbn [fs set_fs]. rewrite lookup_insert_eq.
  f_equal. apply world_eq; cbn [fs sent set_fs]; [| reflexivity].
  now rewrite insert_insert_eq.
Qed.

(** X2. When the archive on disk holds the member, the output path is
    not the archive and can be opened for writing (it is a file, or it is
    free in a directory that exists), the extraction returns normally,
    the output file holds exactly the bytes of the member, whatever it
    held before, and no other path changes. *)
Theorem extract_writes_member (path zip_file output_file : string)
    (w : world) (bs : list byte) (z : gmap string (list byte))
    (member : list byte) :
  fs w !! zip_file = Some (File bs) ->
  unzip bs = Some z ->
  z !! path = Some member ->
  output_file <> zip_file ->
  (exists c, fs w !! output_file = Some (File c))
  \/ (fs w !! output_file = None
      /\ is_dir (fs w) (dirname output_file) = true) ->
  exists w',
    extract_file_from_zip unzip path zip_file output_file w = (Ok tt, w')
    /\ fs w' !! output_file = Some (File member)
    /\ (forall p, p <> output_file -> fs w' !! p = fs w !! p)
    /\ sent w' = sent w.
Proof.
  intros Hzip Hun Hmem Hne Hout. eexists. split.
  - now apply (extract_run _ _ _ _ bs z member).
  - cbn [fs sent set_fs]. split; [apply lookup_insert_eq |].
    split; [| reflexivity].
    intros p Hp. now apply lookup_insert_ne.
Qed.



End Extractor.

Lemma extract_missing_member_witness :
  extract_file_from_zip sample_unzip "no such member" corr_file_name
    "icrp107/ICRP-07.NDX" sample_world
  = (Raise KeyError, sample_world).
Proof.
  apply (extract_missing_member sample_unzip _ _ _ sample_world
           (bytes "PK corr") sample_corr); reflexivity.
Defined.

Lemma extract_writes_member_witness :
  exists w',
    extract_file_from_zip sample_unzip corr_member corr_file_name
      "icrp107/ICRP-07.NDX" sample_world = (Ok tt, w')
    /\ fs w' !! "icrp107/ICRP-07.NDX" = Some (File (bytes "corrected index"))
    /\ (forall p, p <> "icrp107/ICRP-07.NDX" ->
          fs w' !! p = fs sample_world !! p)
    /\ sent w' = sent sample_world.
Proof.
  apply (extract_writes_member sample_unzip corr_member corr_file_name
           "icrp107/ICRP-07.NDX" sample_world (bytes "PK corr") sample_corr
           (bytes "corrected index")); try reflexivity.
  - discriminate.
  - right. split; reflexivity.
Defined.



(** ** The fetcher, further *)

Section FetcherMore.

Variable http : list request -> request -> option response.


Lemma download_with_check_runs_download (url checksum file : string)
    (w : world) (c : list byte) :
  fs w !! file = Some (File c) ->
  Sha1.hexdigest c <> checksum ->
  download_with_check http url checksum file w
  = download_file http url file w.
Proof.
  intros Hc Hsum. unfold download_with_check, verify_file, bind, read_file.
  rewrite Hc. unfold ret. apply String.eqb_neq in Hsum. now rewrite Hsum.
Qed.

(** The run of [download_file] on a file that exists, once the server
    has answered. *)
Lemma download_file_answered (url path : string) (w : world)
    (c : list byte) (resp : response) :
  fs w !! path = Some (File c) ->
  http (sent w) (range_get url (length c)) = Some resp ->
  download_file http url path w
  = (if accepted resp then write_stream path 4096000 resp else ret tt)
      {| fs := fs w; sent := sent w ++ [range_get url (length c)] |}.
Proof.
  intros Hc Hresp. unfold download_file.
  assert (Hopen : open_append path w = (Ok (length c), w)).
  { unfold open_append. now rewrite Hc. }
  rewrite (bind_step _ _ _ _ _ Hopen). fold (range_get url (length c)).
  unfold bind, requests_get. rewrite Hresp. reflexivity.
Qed.

(** X6. A file whose digest is not the checksum and a server that
    answers with a status other than 200 and 206: [download_with_check]
    returns normally all the same, with the file as it was, so the caller
    goes on with a file that was never verified. *)
Theorem download_with_check_accepts_refusal (url checksum file : string)
    (w : world) (c : list byte) (resp : response) :
  fs w !! file = Some (File c) ->
  Sha1.hexdigest c <> checksum ->
  http (sent w) (range_get url (length c)) = Some resp ->
  accepted resp = false ->
  download_with_check http url checksum file w
  = (Ok tt, {| fs := fs w; sent := sent w ++ [range_get url (length c)] |}).
Proof.
  intros Hc Hsum Hresp Ha.
  rewrite (download_with_check_runs_download _ _ _ _ c Hc Hsum).
  rewrite (download_file_answered _ _ _ c resp Hc Hresp), Ha. reflexivity.
Qed.

(** X7. A network error during the GET is not caught: the exception
    escapes [download_with_check], with the file as it was. *)
Theorem download_with_check_network_error (url checksum file : string)
    (w : world) (c : list byte) :
  fs w !! file = Some (File c) ->
  Sha1.hexdigest c <> checksum ->
  http (sent w) (range_get url (length c)) = None ->
  download_with_check http url checksum file w
  = (Raise ConnectionError,
     {| fs := fs w; sent := sent w ++ [range_get url (length c)] |}).
Proof.
  intros Hc Hsum Hresp.
  rewrite (download_with_check_runs_download _ _ _ _ c Hc Hsum).
  unfold download_file.
  assert (Hopen : open_append file w = (Ok (length c), w)).
  { unfold open_append. now rewrite Hc. }
  rewrite (bind_step _ _ _ _ _ Hopen). fold (range_get url (length c)).
  unfold bind, requests_get. now rewrite Hresp.
Qed.


Lemma download_file_cut (url path : string) (w : world)
    (c : list byte) (resp : response) (k : nat) :
  fs w !! path = Some (File c) ->
  http (sent w) (range_get url (length c)) = Some resp ->
  accepted resp = true ->
  resp_cut resp = Some k ->
  download_file http url path w
  = (Raise ConnectionError,
     {| fs := <[path := File
                  (c ++ concat (firstn k (iter_content 4096000 resp)))]>
                (fs w);
        sent := sent w ++ [range_get url (length c)] |}).
Proof.
  intros Hc Hresp Ha Hcut.
  rewrite (download_file_answered _ _ _ c resp Hc Hresp), Ha.
  unfold write_stream. rewrite Hcut. unfold bind.
  rewrite (for_each_write path _ _ c); [reflexivity | exact Hc].
Qed.


(** X9. Resuming. After a download that broke, a second call asks for
    the bytes from the new length of the file on; when the server then
    sends the rest of the body, the file holds its first bytes followed
    by the whole body. *)
Theorem download_file_resumes (url path : string) (w : world)
    (c : list byte) (first second : response) (k : nat) :
  fs w !! path = Some (File c) ->
  http (sent w) (range_get url (length c)) = Some first ->
  accepted first = true ->
  resp_cut first = Some k ->
  let got := concat (firstn k (iter_content 4096000 first)) in
  http (sent w ++ [range_get url (length c)])
       (range_get url (length (c ++ got))) = Some second ->
  accepted second = true ->
  resp_cut second = None ->
  got ++ resp_content second = resp_content first ->
  download_file http url path (snd (download_file http url path w))
  = (Ok tt,
     {| fs := <[path := File (c ++ resp_content first)]> (fs w);
        sent := sent w ++ [range_get url (length c);
                           range_get url (length (c ++ got))] |}).
Proof.
  intros Hc H1 Ha1 Hcut1 got H2 Ha2 Hcut2 Hbody.
  rewrite (download_file_cut url path w c first k Hc H1 Ha1 Hcut1).
  fold got. cbn [snd].
  rewrite (download_file_answered url path _ (c ++ got) second);
    [| cbn [fs]; apply lookup_insert_eq | exact H2].
  rewrite Ha2. unfold write_stream. rewrite Hcut2.
  rewrite (for_each_write path _ _ (c ++ got));
    [| cbn [fs]; apply lookup_insert_eq].
  f_equal. apply world_eq; cbn [fs sent set_fs].
  - rewrite insert_insert_eq, concat_iter_content by lia.
    now rewrite <- app_assoc, Hbody.
  - now rewrite <- app_assoc.
Qed.

Lemma download_file_complete (url path : string) (w : world)
    (c : list byte) (resp : response) :
  fs w !! path = Some (File c) ->
  http (sent w) (range_get url (length c)) = Some resp ->
  accepted resp = true ->
  resp_cut resp = None ->
  download_file http url path w
  = (Ok tt,
     {| fs := <[path := File (c ++ resp_content resp)]> (fs w);
        sent := sent w ++ [range_get url (length c)] |}).
Proof.
  intros Hc Hresp Ha Hcut.
  rewrite (download_file_answered _ _ _ c resp Hc Hresp), Ha.
  unfold write_stream. rewrite Hcut.
  rewrite (for_each_write path _ _ c); [| exact Hc].
  now rewrite concat_iter_content by lia.
Qed.

(** X10. Checksum gating across two runs. When a download completes a
    file to the bytes of the expected digest, the next
    [download_with_check] on it returns normally without a request and
    without touching a file. *)
Theorem download_with_check_second_run (url checksum file : string)
    (w : world) (c : list byte) (resp : response) :
  fs w !! file = Some (File c) ->
  Sha1.hexdigest c <> checksum ->
  http (sent w) (range_get url (length c)) = Some resp ->
  accepted resp = true ->
  resp_cut resp = None ->
  Sha1.hexdigest (c ++ resp_content resp) = checksum ->
  download_with_check http url checksum file
    (snd (download_with_check http url checksum file w))
  = (Ok tt, snd (download_with_check http url checksum file w)).
Proof.
  intros Hc Hsum Hresp Ha Hcut Hgood.
  rewrite (download_with_check_runs_download _ _ _ _ c Hc Hsum).
  rewrite (download_file_complete _ _ _ c resp Hc Hresp Ha Hcut).
  cbn [snd]. unfold download_with_check, verify_file, bind, read_file.
  cbn [fs]. rewrite lookup_insert_eq. unfold ret.
  now rewrite Hgood, String.eqb_refl.
Qed.

Lemma download_file_sent (url path : string) (w : world) :
  sent (snd (download_file http url path w)) = sent w
  \/ sent (snd (download_file http url path w))
     = sent w ++ [range_get url (length (file_bytes (fs w) path))].
Proof.
  unfold download_file.
  destruct (open_append path w) as [[pos | e] w1] eqn:Hopen.
  - rewrite (bind_step _ _ _ _ _ Hopen).
    pose proof (open_append_sent _ _ _ _ Hopen) as Hs.
    destruct (open_append_file _ _ _ _ Hopen) as (Hf & -> & _).
    fold (range_get url (length (file_bytes (fs w) path))).
    right. unfold bind, requests_get. rewrite Hs.
    destruct (http (sent w) _) as [resp |]; [| reflexivity].
    destruct (_ || _)%bool; [| reflexivity].
    match goal with
    | |- context [write_stream path 4096000 resp ?w2] =>
        destruct (write_stream_appends path resp w2 _ Hf)
          as (r & data & -> & _)
    end.
    reflexivity.
  - rewrite (bind_raise _ _ _ _ _ Hopen). left.
    now apply (open_append_sent _ _ _ _ Hopen).
Qed.

Lemma download_with_check_sent (url checksum file : string) (w : world) :
  sent (snd (download_with_check http url checksum file w)) = sent w
  \/ sent (snd (download_with_check http url checksum file w))
     = sent w ++ [range_get url (length (file_bytes (fs w) file))].
Proof.
  unfold download_with_check, verify_file, bind, read_file.
  destruct (fs w !! file) as [[c |] |] eqn:Hc; try (now left).
  unfold ret. destruct (negb _); [| now left].
  apply download_file_sent.
Qed.

(** X11. The footprint of [download_with_check], however it ends: no
    path other than its own changes, a file is never replaced by a
    shorter one (bytes are only appended), and at most one request is
    sent, a GET of [url] from the length the file had. *)
Theorem download_with_check_footprint (url checksum file : string)
    (w : world) :
  (forall p, p <> file ->
     fs (snd (download_with_check http url checksum file w)) !! p
     = fs w !! p)
  /\ (exists more,
        file_bytes (fs (snd (download_with_check http url checksum file w)))
          file
        = file_bytes (fs w) file ++ more)
  /\ (sent (snd (download_with_check http url checksum file w)) = sent w
      \/ sent (snd (download_with_check http url checksum file w))
         = sent w ++ [range_get url (length (file_bytes (fs w) file))]).
Proof.
  split; [| split].
  - intros p Hp. now apply download_with_check_frame.
  - unfold download_with_check, verify_file, bind, read_file.
    destruct (fs w !! file) as [[c |] |] eqn:Hc;
      try (exists []; now rewrite app_nil_r).
    unfold ret. destruct (negb _); [| exists []; now rewrite app_nil_r].
    unfold download_file.
    assert (Hopen : open_append file w = (Ok (length c), w)).
    { unfold open_append. now rewrite Hc. }
    rewrite (bind_step _ _ _ _ _ Hopen). unfold bind, requests_get.
    destruct (http (sent w) _) as [resp |];
      [| exists []; now rewrite app_nil_r].
    destruct (_ || _)%bool; [| exists []; now rewrite app_nil_r].
    match goal with
    | |- context [write_stream file 4096000 resp ?w2] =>
        destruct (write_stream_appends file resp w2 c Hc)
          as (r & data & -> & _)
    end.
    exists data. unfold file_bytes. cbn [snd fs set_fs].
    now rewrite lookup_insert_eq, Hc.
  - apply download_with_check_sent.
Qed.

End FetcherMore.


Lemma download_with_check_accepts_refusal_witness :
  download_with_check (always 404 "gone") "u" abc_checksum "f"
    (one_file "f" (bytes "ab"))
  = (Ok tt, {| fs := fs (one_file "f" (bytes "ab"));
               sent := [range_get "u" 2] |}).
Proof.
  apply (download_with_check_accepts_refusal (always 404 "gone") "u"
           abc_checksum "f" (one_file "f" (bytes "ab")) (bytes "ab")
           not_found).
  - apply lookup_singleton_eq.
  - vm_compute. discriminate.
  - reflexivity.
  - reflexivity.
Defined.

Lemma download_with_check_network_error_witness :
  download_with_check no_network "u" abc_checksum "f"
    (one_file "f" (bytes "ab"))
  = (Raise ConnectionError,
     {| fs := fs (one_file "f" (bytes "ab")); sent := [range_get "u" 2] |}).
Proof.
  apply (download_with_check_network_error no_network "u" abc_checksum "f"
           (one_file "f" (bytes "ab")) (bytes "ab")).
  - apply lookup_singleton_eq.
  - vm_compute. discriminate.
  - reflexivity.
Defined.


Lemma download_file_resumes_witness :
  download_file (breaking_server "abc") "u" "f"
    (snd (download_file (breaking_server "abc") "u" "f"
            (one_file "f" (bytes "xy"))))
  = (Ok tt,
     {| fs := <["f" := File (bytes "xy" ++ bytes "abc")]>
                (fs (one_file "f" (bytes "xy")));
        sent := [range_get "u" 2; range_get "u" 2] |}).
Proof.
  apply (download_file_resumes (breaking_server "abc") "u" "f"
           (one_file "f" (bytes "xy")) (bytes "xy")
           (broken "abc") (partial "abc") O).
  - apply lookup_singleton_eq.
  - reflexivity.
  - reflexivity.
  - reflexivity.
  - reflexivity.
  - reflexivity.
  - reflexivity.
  - reflexivity.
Defined.

Lemma download_with_check_second_run_witness :
  download_with_check (always 206 "bc") "u" abc_checksum "f"
    (snd (download_with_check (always 206 "bc") "u" abc_checksum "f"
            (one_file "f" (bytes "a"))))
  = (Ok tt,
     snd (download_with_check (always 206 "bc") "u" abc_checksum "f"
            (one_file "f" (bytes "a")))).
Proof.
  apply (download_with_check_second_run (always 206 "bc") "u" abc_checksum
           "f" (one_file "f" (bytes "a")) (bytes "a") (partial "bc")).
  - apply lookup_singleton_eq.
  - vm_compute. discriminate.
  - reflexivity.
  - reflexivity.
  - reflexivity.
  - vm_compute. reflexivity.
Defined.

(** ** Footprints of the assemblers *)

Lemma confined_ret {A} (a : A) (paths urls : list string) :
  confined (ret a) paths urls.
Proof.
  intros w. split; [reflexivity |]. exists []. cbn [ret snd].
  now rewrite app_nil_r.
Qed.

Lemma confined_raise {A} (e : exn) (paths urls : list string) :
  confined (@raise A e) paths urls.
Proof.
  intros w. split; [reflexivity |]. exists []. cbn [raise snd].
  now rewrite app_nil_r.
Qed.

Lemma confined_bind {A B} (m : M A) (k : A -> M B)
    (paths urls : list string) :
  confined m paths urls ->
  (forall a, confined (k a) paths urls) ->
  confined (bind m k) paths urls.
Proof.
  intros Hm Hk w. destruct (Hm w) as [Hfs (l & Hsent & Hl)].
  unfold bind. destruct (m w) as [[a | e] w1]; cbn [snd] in *.
  - destruct (Hk a w1) as [Hfs' (l' & Hsent' & Hl')]. split.
    + intros p Hp. now rewrite Hfs', Hfs.
    + exists (l ++ l'). split.
      * now rewrite Hsent', Hsent, app_assoc.
      * now apply Forall_app.
  - split; [exact Hfs |]. now exists l.
Qed.

Lemma confined_weaken {A} (m : M A) (paths urls paths' urls' : list string) :
  confined m paths urls ->
  incl paths paths' -> incl urls urls' ->
  confined m paths' urls'.
Proof.
  intros Hm Hp Hu w. destruct (Hm w) as [Hfs (l & Hsent & Hl)]. split.
  - intros p Hnot. apply Hfs. intros Hin. apply Hnot. now apply Hp.
  - exists l. split; [exact Hsent |].
    eapply Forall_impl; [exact Hl |]. intros r Hr. now apply Hu.
Qed.

Lemma confined_for_each {A} (l : list A) (body : A -> M unit)
    (paths urls : list string) :
  (forall x, In x l -> confined (body x) paths urls) ->
  confined (for_each l body) paths urls.
Proof.
  induction l as [| x l IH]; intros H; cbn [for_each].
  - apply confined_ret.
  - apply confined_bind.
    + apply H. now left.
    + intros _. apply IH. intros y Hy. apply H. now right.
Qed.

(** A computation that leaves the request log alone and changes the
    filesystem at [path] at most. *)
Lemma confined_local {A} (m : M A) (path : string) :
  (forall w, sent (snd (m w)) = sent w) ->
  (forall w p, p <> path -> fs (snd (m w)) !! p = fs w !! p) ->
  confined m [path] [].
Proof.
  intros Hsent Hfs w. split.
  - intros p Hp. apply Hfs. intros ->. apply Hp. now left.
  - exists []. now rewrite app_nil_r, Hsent.
Qed.

Lemma confined_read_file (path : string) : confined (read_file path) [] [].
Proof.
  intros w. unfold read_file.
  destruct (fs w !! path) as [[c |] |]; cbn [snd];
    (split; [reflexivity | exists []; now rewrite app_nil_r]).
Qed.

Lemma confined_open_write (path : string) :
  confined (open_write path) [path] [].
Proof.
  apply confined_local; intros w; unfold open_write;
    destruct (fs w !! path) as [[c |] |];
    try destruct (is_dir (fs w) (dirname path)); cbn [snd fs sent set_fs];
    try reflexivity; intros p Hp; try reflexivity;
    now apply lookup_insert_ne.
Qed.

Lemma confined_write (path : string) (data : list byte) :
  confined (write path data) [path] [].
Proof.
  apply confined_local; intros w; unfold write;
    destruct (fs w !! path) as [[c |] |]; cbn [snd fs sent set_fs];
    try reflexivity; intros p Hp; try reflexivity;
    now apply lookup_insert_ne.
Qed.

Lemma confined_mkdir (leaf : bool) (d : string) :
  confined (mkdir_exist_ok leaf d) [d] [].
Proof.
  apply confined_local; intros w; unfold mkdir_exist_ok;
    destruct (String.eqb d ""); try destruct (fs w !! d) as [[c |] |];
    cbn [snd fs sent set_fs]; try reflexivity; intros p Hp;
    try reflexivity; now apply lookup_insert_ne.
Qed.

Section Footprints.

Variable http : list request -> request -> option response.
Variable unzip : list byte -> option (gmap string (list byte)).

Lemma confined_requests_get (r : request) :
  confined (requests_get http r) [] [req_url r].
Proof.
  intros w. unfold requests_get.
  destruct (http (sent w) r); cbn [snd fs sent];
    (split; [reflexivity |]); exists [r];
    (split; [reflexivity |]); repeat constructor.
Qed.

Lemma confined_download_with_check (url checksum file : string) :
  confined (download_with_check http url checksum file) [file] [url].
Proof.
  intros w. split.
  - intros p Hp. apply download_with_check_frame.
    intros ->. apply Hp. now left.
  - destruct (download_with_check_sent http url checksum file w)
      as [-> | ->].
    + exists []. now rewrite app_nil_r.
    + eexists. split; [reflexivity |]. repeat constructor.
Qed.

Lemma confined_extract (path zip_file output_file : string) :
  confined (extract_file_from_zip unzip path zip_file output_file)
    [output_file] [].
Proof.
  unfold extract_file_from_zip, zip_open.
  apply confined_bind.
  - apply confined_bind.
    + eapply confined_weaken; [apply confined_read_file | |];
        intros x Hx; contradiction Hx.
    + intros bs. destruct (unzip bs);
        [apply confined_ret | apply confined_raise].
  - intros z. destruct (z !! path) as [member |];
      [| apply confined_raise].
    apply confined_bind; [apply confined_open_write |].
    intros _. destruct (String.eqb output_file zip_file);
      [apply confined_raise | apply confined_write].
Qed.

End Footprints.

Ltac in_list := vm_compute; tauto.

Section AssemblerFootprints.

Variable http : list request -> request -> option response.
Variable unzip : list byte -> option (gmap string (list byte)).

Lemma icrp107_confined :
  confined (icrp107 http unzip) icrp107_paths icrp107_urls.
Proof.
  unfold icrp107. apply confined_bind.
  { eapply confined_weaken; [apply confined_download_with_check | |];
      intros x [<- | []]; in_list. }
  intros _. apply confined_bind.
  { apply confined_for_each. intros file Hfile.
    eapply confined_weaken; [apply confined_extract | |].
    - intros x [<- | []]. right. right.
      now apply (in_map (fun f => base_output_path +:+ f)).
    - intros x []. }
  intros _. apply confined_bind.
  { eapply confined_weaken; [apply confined_download_with_check | |];
      intros x [<- | []]; in_list. }
  intros _. eapply confined_weaken; [apply confined_extract | |].
  - intros x [<- | []]. in_list.
  - intros x [].
Qed.

Lemma confined_makedirs (path : string) :
  confined (makedirs path) (path :: ancestors path) [].
Proof.
  unfold makedirs. apply confined_bind.
  - apply confined_for_each. intros d Hd.
    eapply confined_weaken; [apply confined_mkdir | |].
    + intros x [<- | []]. now right.
    + intros x [].
  - intros _. eapply confined_weaken; [apply confined_mkdir | |].
    + intros x [<- | []]. now left.
    + intros x [].
Qed.

Lemma confined_material_constants :
  confined (nist_material_constants http) [] [materials_url].
Proof.
  unfold nist_material_constants. apply confined_bind.
  - apply (confined_requests_get http (plain_get materials_url)).
  - intros resp. destruct (material_table (resp_text resp)) as [t |];
      [| apply confined_raise].
    destruct (format_rows material_widths t);
      [apply confined_ret | apply confined_raise].
Qed.

Lemma confined_elemental_media (z : nat) :
  confined (nist_elemental_media http z) [] [base_url z].
Proof.
  unfold nist_elemental_media. apply confined_bind.
  - apply (confined_requests_get http (plain_get (base_url z))).
  - intros resp. destruct (media_table (resp_text resp)) as [t |];
      [| apply confined_raise].
    destruct (format_rows media_widths t);
      [apply confined_ret | apply confined_raise].
Qed.

Lemma nist_confined :
  confined (nist_mass_attenuation_coefficient http) nist_paths nist_urls.
Proof.
  unfold nist_mass_attenuation_coefficient. apply confined_bind.
  { eapply confined_weaken; [apply confined_makedirs | |].
    - intros x Hx. vm_compute in Hx. destruct Hx as [<- | []]. in_list.
    - intros x []. }
  intros _. apply confined_bind.
  { eapply confined_weaken; [apply confined_open_write | |].
    - intros x [<- | []]. in_list.
    - intros x []. }
  intros _. apply confined_bind.
  { eapply confined_weaken; [apply confined_material_constants | |].
    - intros x [].
    - intros x [<- | []]. now left. }
  intros text. apply confined_bind.
  { eapply confined_weaken; [apply confined_write | |].
    - intros x [<- | []]. in_list.
    - intros x []. }
  intros _. apply confined_for_each. intros z Hz.
  destruct Hz as [<- | []].
  apply confined_bind.
  { eapply confined_weaken; [apply confined_open_write | |].
    - intros x [<- | []]. in_list.
    - intros x []. }
  intros _. apply confined_bind.
  { eapply confined_weaken; [apply confined_elemental_media | |].
    - intros x [].
    - intros x [<- | []]. right. now left. }
  intros text'. eapply confined_weaken; [apply confined_write | |].
  - intros x [<- | []]. in_list.
  - intros x [].
Qed.

(** X12. The footprint of [icrp107], however it ends: it changes no
    path but the two archives and the five files of [icrp107/] (it
    creates no directory), and every request it sends goes to one of its
    two fixed URLs. *)
Theorem icrp107_footprint (w : world) :
  (forall p,
      ~ In p [ "P107JAICRP_38_3_Nuclear_Decay_Data_suppl_data.zip";
               "Corrigenda of Publication 107.zip";
               "icrp107/ICRP-07.NDX"; "icrp107/ICRP-07.RAD";
               "icrp107/ICRP-07.BET"; "icrp107/ICRP-07.NSF";
               "icrp107/ICRP-07.ACK" ] ->
      fs (snd (icrp107 http unzip w)) !! p = fs w !! p)
  /\ exists l,
       sent (snd (icrp107 http unzip w)) = sent w ++ l
       /\ Forall (fun r => req_url r = data_url \/ req_url r = corr_url) l.
Proof.
  destruct (icrp107_confined w) as [Hfs (l & Hsent & Hl)]. split.
  - exact Hfs.
  - exists l. split; [exact Hsent |].
    eapply Forall_impl; [exact Hl |]. cbn [icrp107_urls In].
    intros r [H | [H | []]]; auto.
Qed.

(** X13. The footprint of [nist_mass_attenuation_coefficient], however
    it ends: it changes no path but its directory and the two files in
    it, and its requests go to the page of material constants and to the
    page of element 1. *)
Theorem nist_footprint (w : world) :
  (forall p,
      ~ In p [ "XrayMassAttenCoef"; "XrayMassAttenCoef/material_constants";
               "XrayMassAttenCoef/01" ] ->
      fs (snd (nist_mass_attenuation_coefficient http w)) !! p = fs w !! p)
  /\ exists l,
       sent (snd (nist_mass_attenuation_coefficient http w)) = sent w ++ l
       /\ Forall (fun r => req_url r = materials_url
                           \/ req_url r = base_url 1) l.
Proof.
  destruct (nist_confined w) as [Hfs (l & Hsent & Hl)]. split.
  - exact Hfs.
  - exists l. split; [exact Hsent |].
    eapply Forall_impl; [exact Hl |]. cbn [nist_urls In].
    intros r [H | [H | []]]; auto.
Qed.

(** X14. The two assemblers do not touch each other's files: whatever
    one of them does, the paths of the other are as they were. *)
Theorem assemblers_independent (w : world) (p : string) :
  (In p icrp107_paths ->
   fs (snd (nist_mass_attenuation_coefficient http w)) !! p = fs w !! p)
  /\ (In p nist_paths ->
      fs (snd (icrp107 http unzip w)) !! p = fs w !! p).
Proof.
  split; intros Hin.
  - apply (nist_confined w). intros Hin'.
    vm_compute in Hin, Hin'.
    repeat match goal with
           | H : _ \/ _ |- _ => destruct H
           | H : False |- _ => destruct H
           end; subst; discriminate.
  - apply (icrp107_confined w). intros Hin'.
    vm_compute in Hin, Hin'.
    repeat match goal with
           | H : _ \/ _ |- _ => destruct H
           | H : False |- _ => destruct H
           end; subst; discriminate.
Qed.

(** X15. Without the base archive on disk [icrp107] stops at once with
    [FileNotFoundError]: nothing is requested and nothing is written, and
    a run of the script with the default selection ends there, with exit
    status 1. *)
Theorem icrp107_needs_archive (w : world) :
  fs w !! data_file_name = None ->
  icrp107 http unzip w = (Raise FileNotFoundError, w)
  /\ main http unzip NoFlag w = (Raise FileNotFoundError, w)
  /\ exit_code (fst (main http unzip NoFlag w)) = 1%Z.
Proof.
  intros Hnone.
  assert (H : icrp107 http unzip w = (Raise FileNotFoundError, w)).
  { unfold icrp107. apply bind_raise.
    unfold download_with_check, verify_file, bind, read_file.
    now rewrite Hnone. }
  split; [exact H |].
  assert (Hmain : main http unzip NoFlag w = (Raise FileNotFoundError, w)).
  { change (main http unzip NoFlag w)
      with (bind (icrp107 http unzip)
              (fun _ => for_each ["nist_mass_attenuation_coefficient"]
                          (dispatch http unzip)) w).
    now apply bind_raise. }
  split; [exact Hmain |]. now rewrite Hmain.
Qed.

(** X16. A value outside the choices ends the run with status 2 before
    anything else happens: no assembler runs, whatever the other values
    are. *)
Theorem main_rejects_unknown_dataset (values : list string) (w : world) :
  forallb (fun v => mem v choices) values = false ->
  main http unzip (Flag values) w = (Raise (SystemExit 2), w)
  /\ exit_code (fst (main http unzip (Flag values) w)) = 2%Z.
Proof.
  intros H. unfold main, parse_args, bind. rewrite H. split; reflexivity.
Qed.

(** X17. When [all] is among the values, the other values do not count:
    the run is the default run, each assembler once, in the fixed
    order. *)
Theorem main_all_overrides (values : list string) (w : world) :
  forallb (fun v => mem v choices) values = true ->
  mem "all" values = true ->
  main http unzip (Flag values) w = main http unzip NoFlag w.
Proof.
  intros Hok Hall. unfold main, parse_args, bind. rewrite Hok.
  unfold ret, datasets, contains_all. now rewrite Hall.
Qed.

(** X18. Without [all], the values are run as they are written, one
    assembler per value: a name given twice runs its assembler twice. *)
Theorem main_runs_each_value (values : list string) (w : world) :
  forallb (fun v => mem v choices) values = true ->
  mem "all" values = false ->
  main http unzip (Flag values) w
  = for_each values
      (fun ds => if String.eqb ds "icrp107"
                 then icrp107 http unzip
                 else nist_mass_attenuation_coefficient http) w.
Proof.
  intros Hok Hall. unfold main, parse_args, bind. rewrite Hok.
  unfold ret, datasets, contains_all. rewrite Hall. cbn [iterate].
  revert w. induction values as [| v values IH]; intros w; [reflexivity |].
  cbn [forallb] in Hok. apply andb_true_iff in Hok as [Hv Hok].
  cbn [mem existsb] in Hall. apply orb_false_iff in Hall as [Hv' Hall].
  cbn [for_each]. unfold bind.
  assert (Hd : dispatch http unzip v
               = if String.eqb v "icrp107" then icrp107 http unzip
                 else nist_mass_attenuation_coefficient http).
  { unfold dispatch. unfold mem, choices, all_datasets in Hv.
    cbn [existsb] in Hv. rewrite (String.eqb_sym v "all"), Hv' in Hv.
    destruct (String.eqb v "icrp107"); [reflexivity |].
    cbn [orb] in Hv. rewrite orb_false_r in Hv. now rewrite Hv. }
  rewrite Hd. destruct (String.eqb v "icrp107").
  - destruct (icrp107 http unzip w) as [[[] | e] w1]; [| reflexivity].
    now apply IH.
  - destruct (nist_mass_attenuation_coefficient http w) as [[[] | e] w1];
      [| reflexivity].
    now apply IH.
Qed.

End AssemblerFootprints.

Lemma icrp107_needs_archive_witness :
  icrp107 (always 200 "abc") sample_unzip empty_world
  = (Raise FileNotFoundError, empty_world)
  /\ main (always 200 "abc") sample_unzip NoFlag empty_world
     = (Raise FileNotFoundError, empty_world)
  /\ exit_code (fst (main (always 200 "abc") sample_unzip NoFlag empty_world))
     = 1%Z.
Proof.
  apply (icrp107_needs_archive (always 200 "abc") sample_unzip empty_world).
  reflexivity.
Defined.

Lemma main_rejects_unknown_dataset_witness :
  main no_network sample_unzip (Flag ["icrp107"; "icrp108"]) sample_world
  = (Raise (SystemExit 2), sample_world)
  /\ exit_code
       (fst (main no_network sample_unzip (Flag ["icrp107"; "icrp108"])
               sample_world)) = 2%Z.
Proof.
  apply (main_rejects_unknown_dataset no_network sample_unzip
           ["icrp107"; "icrp108"] sample_world).
  reflexivity.
Defined.

Lemma main_all_overrides_witness :
  main no_network sample_unzip (Flag ["icrp107"; "all"; "icrp107"])
    sample_world
  = main no_network sample_unzip NoFlag sample_world.
Proof.
  apply (main_all_overrides no_network sample_unzip
           ["icrp107"; "all"; "icrp107"] sample_world); reflexivity.
Defined.

Lemma main_runs_each_value_witness :
  main (always 416 "") sample_unzip (Flag ["icrp107"; "icrp107"]) sample_world
  = for_each ["icrp107"; "icrp107"]
      (fun ds => if String.eqb ds "icrp107"
                 then icrp107 (always 416 "") sample_unzip
                 else nist_mass_attenuation_coefficient (always 416 ""))
      sample_world.
Proof.
  apply (main_runs_each_value (always 416 "") sample_unzip
           ["icrp107"; "icrp107"] sample_world); reflexivity.
Defined.

(** ** The attenuation assembler *)

Section Attenuation.

Variable http : list request -> request -> option response.

Lemma makedirs_data_path_dir (w : world) :
  fs w !! data_path = Some Dir -> makedirs data_path w = (Ok tt, w).
Proof.
  intros H. unfold makedirs.
  replace (ancestors data_path) with (@nil string)
    by (vm_compute; reflexivity).
  cbn [for_each]. unfold bind, ret, mkdir_exist_ok.
  replace (String.eqb data_path "") with false by reflexivity.
  now rewrite H.
Qed.

Lemma makedirs_data_path_fresh (w : world) :
  fs w !! data_path = None ->
  makedirs data_path w = (Ok tt, set_fs w (<[data_path := Dir]> (fs w))).
Proof.
  intros H. unfold makedirs.
  replace (ancestors data_path) with (@nil string)
    by (vm_compute; reflexivity).
  cbn [for_each]. unfold bind, ret, mkdir_exist_ok.
  replace (String.eqb data_path "") with false by reflexivity.
  now rewrite H.
Qed.

(** The scraper looks at the request log only: on a world with other
    files it ends the same way and leaves those files alone. *)
Lemma material_constants_any_files (w : world) (m : gmap string node) :
  nist_material_constants http (set_fs w m)
  = (fst (nist_material_constants http w),
     set_fs (snd (nist_material_constants http w)) m).
Proof.
  unfold nist_material_constants, bind, requests_get. cbn [sent set_fs fs].
  destruct (http (sent w) (plain_get materials_url)) as [resp |];
    [| reflexivity].
  destruct (material_table (resp_text resp)) as [t |]; [| reflexivity].
  destruct (format_rows material_widths t); reflexivity.
Qed.

Lemma is_dir_insert (m : gmap string node) (d : string) :
  is_dir (<[d := Dir]> m) d = true.
Proof. unfold is_dir. rewrite lookup_insert_eq. now destruct (String.eqb d ""). Qed.

Lemma is_dir_insert_ne (m : gmap string node) (k d : string) (v : node) :
  k <> d -> is_dir (<[k := v]> m) d = is_dir m d.
Proof. intros H. unfold is_dir. now rewrite lookup_insert_ne. Qed.

Lemma write_existing (path : string) (data : list byte) (w : world)
    (c : list byte) :
  fs w !! path = Some (File c) ->
  write path data w
  = (Ok tt, set_fs w (<[path := File (c ++ data)]> (fs w))).
Proof. intros H. unfold write. now rewrite H. Qed.

Lemma material_constants_run (w : world) (r : response)
    (t : list (list string)) (l : list string) :
  http (sent w) (plain_get materials_url) = Some r ->
  material_table (resp_text r) = Some t ->
  format_rows material_widths t = Some l ->
  nist_material_constants http w
  = (Ok (lines l),
     {| fs := fs w; sent := sent w ++ [plain_get materials_url] |}).
Proof.
  intros H Ht Hl. unfold nist_material_constants, bind, requests_get.
  now rewrite H, Ht, Hl.
Qed.

Lemma elemental_media_run (z : nat) (w : world) (r : response)
    (t : list (list string)) (l : list string) :
  http (sent w) (plain_get (base_url z)) = Some r ->
  media_table (resp_text r) = Some t ->
  format_rows media_widths t = Some l ->
  nist_elemental_media http z w
  = (Ok (lines l),
     {| fs := fs w; sent := sent w ++ [plain_get (base_url z)] |}).
Proof.
  intros H Ht Hl. unfold nist_elemental_media, bind, requests_get.
  now rewrite H, Ht, Hl.
Qed.

(** X19. The table file is opened for writing before its page is
    fetched: when fetching or scraping the page of material constants
    fails, [nist_mass_attenuation_coefficient] raises the same exception
    and the table of an earlier run is gone, its file left empty. *)
Theorem nist_failure_empties_table (w : world) (old : list byte) (e : exn) :
  fs w !! data_path = Some Dir ->
  fs w !! (data_path +:+ "/material_constants") = Some (File old) ->
  fst (nist_material_constants http w) = Raise e ->
  fst (nist_mass_attenuation_coefficient http w) = Raise e
  /\ fs (snd (nist_mass_attenuation_coefficient http w))
       !! (data_path +:+ "/material_constants") = Some (File []).
Proof.
  intros Hdir Hold He.
  assert (Hopen : open_write (data_path +:+ "/material_constants") w
                  = (Ok tt,
                     set_fs w (<[data_path +:+ "/material_constants"
                                 := File []]> (fs w)))).
  { unfold open_write. now rewrite Hold. }
  assert (Hrun : nist_mass_attenuation_coefficient http w
                 = (Raise e,
                    set_fs (snd (nist_material_constants http w))
                      (<[data_path +:+ "/material_constants" := File []]>
                         (fs w)))).
  { unfold nist_mass_attenuation_coefficient.
    rewrite (bind_step _ _ _ _ _ (makedirs_data_path_dir w Hdir)).
    rewrite (bind_step _ _ _ _ _ Hopen). apply bind_raise.
    now rewrite material_constants_any_files, He. }
  rewrite Hrun. cbn [fst snd fs set_fs].
  split; [reflexivity | apply lookup_insert_eq].
Qed.

(** X20. On a working directory that has none of its three paths, with
    both pages served and scraped, [nist_mass_attenuation_coefficient]
    returns normally after two requests, constants first; it has made the
    directory and written the two tables, each as the bytes of its
    lines. *)
Theorem nist_fresh_run (w : world) (r1 r2 : response)
    (t1 t2 : list (list string)) (l1 l2 : list string) :
  fs w !! data_path = None ->
  fs w !! (data_path +:+ "/material_constants") = None ->
  fs w !! (data_path +:+ "/01") = None ->
  http (sent w) (plain_get materials_url) = Some r1 ->
  material_table (resp_text r1) = Some t1 ->
  format_rows material_widths t1 = Some l1 ->
  http (sent w ++ [plain_get materials_url]) (plain_get (base_url 1))
  = Some r2 ->
  media_table (resp_text r2) = Some t2 ->
  format_rows media_widths t2 = Some l2 ->
  nist_mass_attenuation_coefficient http w
  = (Ok tt,
     {| fs := <[data_path +:+ "/01" := File (encode (lines l2))]>
                (<[data_path +:+ "/material_constants"
                   := File (encode (lines l1))]>
                   (<[data_path := Dir]> (fs w)));
        sent := sent w ++ [plain_get materials_url; plain_get (base_url 1)]
     |}).
Proof.
  intros Hdir Hmc Hel H1 Ht1 Hl1 H2 Ht2 Hl2.
  unfold nist_mass_attenuation_coefficient.
  rewrite (bind_step _ _ _ _ _ (makedirs_data_path_fresh w Hdir)).
  set (mc := data_path +:+ "/material_constants") in *.
  change (seq 1 1) with [1%nat]. cbn [for_each].
  change (data_path +:+ "/" +:+ format_02 1) with (data_path +:+ "/01").
  set (el := data_path +:+ "/01") in *.
  assert (Hne1 : data_path <> mc) by (apply String.eqb_neq; reflexivity).
  assert (Hne2 : data_path <> el) by (apply String.eqb_neq; reflexivity).
  assert (Hne3 : mc <> el) by (apply String.eqb_neq; reflexivity).
  set (m1 := <[data_path := Dir]> (fs w)).
  set (m2 := <[mc := File []]> m1).
  set (m3 := <[mc := File (encode (lines l1))]> m1).
  set (m4 := <[el := File []]> m3).
  assert (S1 : open_write mc (set_fs w m1) = (Ok tt, set_fs w m2)).
  { rewrite open_write_ok; [reflexivity |]. right. cbn [fs set_fs]. split.
    - subst m1. now rewrite lookup_insert_ne.
    - change (dirname mc) with data_path. now apply is_dir_insert. }
  rewrite (bind_step _ _ _ _ _ S1).
  assert (S2 : nist_material_constants http (set_fs w m2)
               = (Ok (lines l1),
                  {| fs := m2; sent := sent w ++ [plain_get materials_url] |})).
  { now rewrite (material_constants_run (set_fs w m2) r1 t1 l1 H1 Ht1 Hl1). }
  rewrite (bind_step _ _ _ _ _ S2).
  assert (S3 : write mc (encode (lines l1))
                 {| fs := m2; sent := sent w ++ [plain_get materials_url] |}
               = (Ok tt,
                  {| fs := m3; sent := sent w ++ [plain_get materials_url] |})).
  { rewrite (write_existing mc _ _ []);
      [| cbn [fs]; subst m2; apply lookup_insert_eq].
    f_equal. apply world_eq; cbn [fs sent set_fs]; [| reflexivity].
    subst m2 m3. now rewrite insert_insert_eq. }
  rewrite (bind_step _ _ _ _ _ S3).
  assert (S4 : open_write el
                 {| fs := m3; sent := sent w ++ [plain_get materials_url] |}
               = (Ok tt,
                  {| fs := m4; sent := sent w ++ [plain_get materials_url] |})).
  { rewrite open_write_ok; [reflexivity |]. right. cbn [fs]. split.
    - subst m3 m1. now rewrite !lookup_insert_ne.
    - change (dirname el) with data_path. subst m3.
      rewrite is_dir_insert_ne by (intros E; now apply Hne1).
      now apply is_dir_insert. }
  assert (S5 : nist_elemental_media http 1
                 {| fs := m4; sent := sent w ++ [plain_get materials_url] |}
               = (Ok (lines l2),
                  {| fs := m4;
                     sent := (sent w ++ [plain_get materials_url])
                             ++ [plain_get (base_url 1)] |})).
  { now rewrite (elemental_media_run 1
                   {| fs := m4; sent := sent w ++ [plain_get materials_url] |}
                   r2 t2 l2 H2 Ht2 Hl2). }
  assert (Sbody :
            (run open_write el ;;
             do text <- nist_elemental_media http 1 ;;
             write el (encode text))
              {| fs := m3; sent := sent w ++ [plain_get materials_url] |}
            = (Ok tt,
               {| fs := <[el := File (encode (lines l2))]> m3;
                  sent := sent w ++ [plain_get materials_url;
                                     plain_get (base_url 1)] |})).
  { rewrite (bind_step _ _ _ _ _ S4), (bind_step _ _ _ _ _ S5).
    rewrite (write_existing el (encode (lines l2)) _ []);
      [| cbn [fs]; subst m4; apply lookup_insert_eq].
    f_equal. apply world_eq; cbn [fs sent set_fs].
    - subst m4. now rewrite insert_insert_eq.
    - now rewrite <- app_assoc. }
  now rewrite (bind_step _ _ _ _ _ Sbody).
Qed.

End Attenuation.

Lemma nist_failure_empties_table_witness :
  fst (nist_mass_attenuation_coefficient no_network old_table_world)
  = Raise ConnectionError
  /\ fs (snd (nist_mass_attenuation_coefficient no_network old_table_world))
       !! (data_path +:+ "/material_constants") = Some (File []).
Proof.
  apply (nist_failure_empties_table no_network old_table_world (bytes "old")
           ConnectionError); reflexivity.
Defined.

Lemma nist_fresh_run_witness :
  nist_mass_attenuation_coefficient nist_server empty_world
  = (Ok tt,
     {| fs := <[data_path +:+ "/01" := File (encode (lines media_lines))]>
                (<[data_path +:+ "/material_constants"
                   := File (encode (lines material_lines))]>
                   (<[data_path := Dir]> (fs empty_world)));
        sent := [plain_get materials_url; plain_get (base_url 1)] |}).
Proof.
  apply (nist_fresh_run nist_server empty_world
           (page sample_table_page) (page sample_pre_page)
           (material_header
            ++ [["1"; "H"; "Hydrogen"; "0.5"; "19.2"; "8.4e-5"]])
           (media_header ++ [["1.000E-03"; "1.000E+01"; "2.000E+01"]])
           material_lines media_lines);
    try reflexivity; vm_compute; reflexivity.
Defined.

(** ** Soundness of the matcher *)

Lemma star_sound (L : chars -> Prop)
    (step : captures -> chars -> list outcome) (greedy : bool) :
  (forall cap s o, In o (step cap s) -> exists p, s = p ++ snd o /\ L p) ->
  forall (fuel : nat) (cap : captures) (s : chars) (o : outcome),
    In o (star step greedy fuel cap s) ->
    exists ps, s = concat ps ++ snd o /\ Forall L ps.
Proof.
  intros Hstep. induction fuel as [| f IH]; intros cap s o Ho.
  - cbn [star] in Ho. destruct Ho as [<- | []]. exists []. split; auto.
  - cbn [star] in Ho.
    assert (Hmore :
              In o (flat_map
                      (fun o1 : outcome =>
                         if (length (snd o1) <? length s)%nat
                         then star step greedy f (fst o1) (snd o1)
                         else []) (step cap s)) ->
              exists ps, s = concat ps ++ snd o /\ Forall L ps).
    { intros Hin. apply in_flat_map in Hin as (o1 & Ho1 & Hin).
      destruct (length (snd o1) <? length s)%nat; [| destruct Hin].
      destruct (Hstep _ _ _ Ho1) as (p & Hs & Hp).
      destruct (IH _ _ _ Hin) as (ps & Hs' & Hps).
      exists (p :: ps). split; [| now constructor].
      rewrite Hs, Hs'. cbn [concat]. now rewrite app_assoc. }
    destruct greedy.
    + apply in_app_iff in Ho as [Ho | [<- | []]]; [now apply Hmore |].
      exists []. split; auto.
    + destruct Ho as [<- | Ho]; [| now apply Hmore].
      exists []. split; auto.
Qed.

Lemma times_sound (L : chars -> Prop)
    (step : captures -> chars -> list outcome) :
  (forall cap s o, In o (step cap s) -> exists p, s = p ++ snd o /\ L p) ->
  forall (n : nat) (cap : captures) (s : chars) (o : outcome),
    In o (times step n cap s) ->
    exists ps, length ps = n /\ s = concat ps ++ snd o /\ Forall L ps.
Proof.
  intros Hstep. induction n as [| n IH]; intros cap s o Ho; cbn [times] in Ho.
  - destruct Ho as [<- | []]. exists []. repeat split; auto.
  - apply in_flat_map in Ho as (o1 & Ho1 & Hin).
    destruct (Hstep _ _ _ Ho1) as (p & Hs & Hp).
    destruct (IH _ _ _ Hin) as (ps & Hlen & Hs' & Hps).
    exists (p :: ps). split; [simpl; now rewrite Hlen |].
    split; [| now constructor].
    rewrite Hs, Hs'. cbn [concat]. now rewrite app_assoc.
Qed.

(** Every outcome of the matcher leaves a suffix of the text, and what
    it consumed is in the language of the pattern. *)
Lemma matches_sound (r : regex) :
  forall (cap : captures) (s : chars) (o : outcome),
    In o (matches r cap s) -> exists p, s = p ++ snd o /\ lang r p.
Proof.
  induction r as [| c | r1 IH1 r2 IH2 | r1 IH1 r2 IH2 | g r1 IH1 | g r1 IH1
                 | n r1 IH1 | i r1 IH1 | r1 IH1];
    intros cap s o Ho; cbn [matches lang] in *.
  - destruct Ho as [<- | []]. now exists [].
  - destruct s as [| a t]; [destruct Ho |].
    destruct (in_class c a) eqn:Ha; [| destruct Ho].
    destruct Ho as [<- | []]. exists [a]. split; [reflexivity |].
    now exists a.
  - apply in_flat_map in Ho as (o1 & Ho1 & Ho2).
    destruct (IH1 _ _ _ Ho1) as (p1 & Hs1 & Hp1).
    destruct (IH2 _ _ _ Ho2) as (p2 & Hs2 & Hp2).
    exists (p1 ++ p2). split; [now rewrite Hs1, Hs2, app_assoc |].
    now exists p1, p2.
  - apply in_app_iff in Ho as [Ho | Ho].
    + destruct (IH1 _ _ _ Ho) as (p & Hs & Hp). exists p. auto.
    + destruct (IH2 _ _ _ Ho) as (p & Hs & Hp). exists p. auto.
  - destruct (star_sound (lang r1) (matches r1) g IH1 _ _ _ _ Ho)
      as (ps & Hs & Hps).
    exists (concat ps). split; [exact Hs |]. now exists ps.
  - apply in_flat_map in Ho as (o1 & Ho1 & Ho2).
    destruct (IH1 _ _ _ Ho1) as (p1 & Hs1 & Hp1).
    destruct (star_sound (lang r1) (matches r1) g IH1 _ _ _ _ Ho2)
      as (ps & Hs & Hps).
    exists (p1 ++ concat ps). split; [now rewrite Hs1, Hs, app_assoc |].
    now exists p1, ps.
  - destruct (times_sound (lang r1) (matches r1) IH1 _ _ _ _ Ho)
      as (ps & Hlen & Hs & Hps).
    exists (concat ps). split; [exact Hs |]. now exists ps.
  - apply in_map_iff in Ho as (o1 & <- & Ho1). cbn [snd].
    now apply IH1 in Ho1.
  - now apply IH1 in Ho.
Qed.

Lemma match_at_lang (r : regex) (s : chars) (m : rmatch) :
  match_at r s = Some m -> lang r (m_text m).
Proof.
  unfold match_at. destruct (matches r [] s) as [| [c rest] tl] eqn:E;
    [discriminate |].
  intros [= <-]. cbn [m_text].
  destruct (matches_sound r [] s (c, rest)) as (p & Hs & Hp).
  { rewrite E. now left. }
  cbn [snd] in Hs. rewrite Hs, consumed_app. exact Hp.
Qed.

Lemma search_from_lang (r : regex) (s : chars) (m : rmatch) :
  search_from r s = Some m -> lang r (m_text m).
Proof.
  induction s as [| a s IH]; cbn [search_from];
    destruct (match_at r _) as [m' |] eqn:E; intros H;
    try (injection H as <-; now apply (match_at_lang r _ _ E));
    [discriminate | now apply IH].
Qed.

Lemma scan_lang (r : regex) (fuel : nat) :
  forall s : chars, Forall (fun m => lang r (m_text m)) (scan fuel r s).
Proof.
  induction fuel as [| f IH]; intros s; cbn [scan]; [constructor |].
  destruct (search_from r s) as [m |] eqn:E; [| constructor].
  constructor; [now apply (search_from_lang r s) |].
  destruct (m_text m); destruct (m_rest m); try constructor; apply IH.
Qed.

(** ** The rows of the attenuation table *)

Lemma in_all_ascii (a : ascii) : In a all_ascii.
Proof.
  unfold all_ascii. apply in_map_iff. exists (nat_of_ascii a).
  split; [apply ascii_nat_embedding |].
  apply in_seq. pose proof (nat_ascii_bounded a). lia.
Qed.

Lemma class_within_spec (P : ascii -> bool) (c : char_class) (a : ascii) :
  class_within P c = true -> in_class c a = true -> P a = true.
Proof.
  unfold class_within. rewrite forallb_forall. intros H Ha.
  specialize (H a (in_all_ascii a)). now rewrite Ha in H.
Qed.

Lemma forallb_concat {A} (P : A -> bool) (ps : list (list A)) :
  Forall (fun p => forallb P p = true) ps ->
  forallb P (concat ps) = true.
Proof.
  induction 1 as [| p ps Hp _ IH]; [reflexivity |].
  cbn [concat]. now rewrite forallb_app, Hp, IH.
Qed.

(** The text a pattern consumes is made of characters of its classes. *)
Lemma within_lang (P : ascii -> bool) (r : regex) :
  within P r = true -> forall p, lang r p -> forallb P p = true.
Proof.
  induction r as [| c | r1 IH1 r2 IH2 | r1 IH1 r2 IH2 | g r1 IH1 | g r1 IH1
                 | n r1 IH1 | i r1 IH1 | r1 IH1];
    cbn [within lang]; intros Hw p Hp.
  - now subst p.
  - destruct Hp as (a & -> & Ha). cbn [forallb].
    now rewrite (class_within_spec P c a Hw Ha).
  - apply andb_true_iff in Hw as [H1 H2].
    destruct Hp as (p1 & p2 & -> & Hp1 & Hp2).
    now rewrite forallb_app, (IH1 H1 _ Hp1), (IH2 H2 _ Hp2).
  - apply andb_true_iff in Hw as [H1 H2].
    destruct Hp as [Hp | Hp]; [now apply IH1 | now apply IH2].
  - destruct Hp as (ps & -> & Hps). apply forallb_concat.
    eapply Forall_impl; [exact Hps |]. intros q Hq. now apply IH1.
  - destruct Hp as (p1 & ps & -> & Hp1 & Hps).
    rewrite forallb_app, (IH1 Hw _ Hp1). apply forallb_concat.
    eapply Forall_impl; [exact Hps |]. intros q Hq. now apply IH1.
  - destruct Hp as (ps & _ & -> & Hps). apply forallb_concat.
    eapply Forall_impl; [exact Hps |]. intros q Hq. now apply IH1.
  - now apply IH1.
  - now apply IH1.
Qed.

Lemma lang_chr_nonempty (c : char_class) (p : chars) :
  lang (Chr c) p -> p <> [].
Proof. intros (a & -> & _). discriminate. Qed.

(** What one repetition of the row pattern consumes is a field. *)
Lemma lang_token_field (g : chars) :
  lang (Group 1
          (Seq (Chr CDigit)
             (Seq (Chr (CLit "."))
                (Seq (Plus false (Chr CDigit))
                   (Seq (Chr (CLit "E"))
                      (Seq (Chr (CSet ["+"; "-"]%char))
                         (Seq (Rep 2 (Chr CDigit))
                            (Plus true (Chr CSpace))))))))) g ->
  field g.
Proof.
  cbn [lang]. intros (p1 & q1 & -> & H1 & p2 & q2 & -> & H2 & p3 & q3 & ->
                      & H3 & p4 & q4 & -> & H4 & p5 & q5 & -> & H5 & p6 & ws
                      & -> & H6 & Hws).
  exists (p1 ++ p2 ++ p3 ++ p4 ++ p5 ++ p6), ws. split; [| split; [| split]].
  - now rewrite <- !app_assoc.
  - destruct H1 as (a & -> & _). discriminate.
  - rewrite !forallb_app.
    rewrite (within_lang no_space (Chr CDigit) eq_refl p1 H1).
    rewrite (within_lang no_space (Chr (CLit ".")) eq_refl p2 H2).
    rewrite (within_lang no_space (Plus false (Chr CDigit)) eq_refl p3 H3).
    rewrite (within_lang no_space (Chr (CLit "E")) eq_refl p4 H4).
    rewrite (within_lang no_space (Chr (CSet ["+"; "-"]%char)) eq_refl p5 H5).
    rewrite (within_lang no_space (Rep 2 (Chr CDigit)) eq_refl p6 H6).
    reflexivity.
  - split.
    + destruct Hws as (s1 & sps & -> & (a & -> & _) & _). discriminate.
    + exact (within_lang isspace (Plus true (Chr CSpace)) eq_refl ws Hws).
Qed.

Lemma split_aux_token (tok : chars) :
  forallb no_space tok = true ->
  forall cur s, split_aux cur (tok ++ s) = split_aux (rev tok ++ cur) s.
Proof.
  induction tok as [| a tok IH]; intros Htok cur s; [reflexivity |].
  cbn [forallb] in Htok. apply andb_true_iff in Htok as [Ha Htok].
  unfold no_space in Ha. apply negb_true_iff in Ha.
  cbn [app split_aux rev]. rewrite Ha, (IH Htok).
  now rewrite <- app_assoc.
Qed.

Lemma split_aux_skip (ws : chars) :
  forallb isspace ws = true ->
  forall s, split_aux [] (ws ++ s) = split_aux [] s.
Proof.
  induction ws as [| a ws IH]; intros Hws s; [reflexivity |].
  cbn [forallb] in Hws. apply andb_true_iff in Hws as [Ha Hws].
  cbn [app split_aux]. rewrite Ha. now apply IH.
Qed.

Lemma split_aux_field (g : chars) :
  field g ->
  exists tok, forall s, split_aux [] (g ++ s) = tok :: split_aux [] s.
Proof.
  intros (tok & ws & -> & Hne & Htok & Hwne & Hws). exists tok. intros s.
  rewrite <- app_assoc, (split_aux_token tok Htok), app_nil_r.
  destruct ws as [| a ws]; [contradiction |].
  cbn [forallb] in Hws. apply andb_true_iff in Hws as [Ha Hws].
  cbn [app split_aux]. rewrite Ha.
  destruct (rev tok) as [| x l] eqn:E.
  - apply (f_equal (@rev ascii)) in E. rewrite rev_involutive in E.
    now contradiction Hne.
  - rewrite <- E, rev_involutive. f_equal. now apply split_aux_skip.
Qed.

Lemma split_aux_fields (ps : list chars) :
  Forall field ps -> length (split_aux [] (concat ps)) = length ps.
Proof.
  induction 1 as [| g ps Hg _ IH]; [reflexivity |].
  destruct (split_aux_field g Hg) as [tok Htok].
  cbn [concat]. rewrite Htok. simpl. now rewrite IH.
Qed.

(** Every match of the row pattern splits into three fields. *)
Lemma triple_re_three_fields (p : chars) :
  lang triple_re p -> length (split_aux [] p) = 3%nat.
Proof.
  unfold triple_re. cbn [lang]. intros (ps & Hlen & -> & Hps).
  rewrite split_aux_fields; [exact Hlen |].
  eapply Forall_impl; [exact Hps |]. intros g Hg.
  now apply lang_token_field.
Qed.

Lemma media_table_rows (text : string) (t : list (list string)) :
  media_table text = Some t -> Forall (fun row => length row = 3%nat) t.
Proof.
  unfold media_table. destruct (re_search pre_re text) as [m |];
    [| discriminate].
  intros [= <-]. unfold media_header. cbn [app].
  constructor; [reflexivity |]. constructor; [reflexivity |].
  apply Forall_map. unfold re_finditer.
  eapply Forall_impl; [apply scan_lang |].
  intros row Hrow. cbn beta in *. unfold split, group0.
  rewrite length_map, list_ascii_of_string_of_list_ascii.
  now apply triple_re_three_fields.
Qed.

Lemma format_rows_total (widths : list nat) (t : list (list string)) :
  Forall (fun row => (length widths <= length row)%nat) t ->
  exists l, format_rows widths t = Some l.
Proof.
  induction 1 as [| row t Hrow _ [l IH]]; cbn [format_rows]; [eauto |].
  destruct (format_row_total widths row Hrow) as [line ->].
  rewrite IH. eauto.
Qed.

(** X21. Every row of the attenuation table has exactly three cells,
    the header rows and each row scraped from the page alike; so the
    formatting step of [nist_elemental_media] has the three cells it
    asks for and the function never raises [IndexError]. *)
Theorem elemental_media_three_cells
    (http : list request -> request -> option response) (z : nat)
    (w : world) (text : string) :
  (forall t, media_table text = Some t ->
             Forall (fun row => length row = 3%nat) t
             /\ exists l, format_rows media_widths t = Some l)
  /\ fst (nist_elemental_media http z w) <> Raise IndexError.
Proof.
  assert (Hfmt : forall text' t,
             media_table text' = Some t ->
             exists l, format_rows media_widths t = Some l).
  { intros text' t Ht. apply format_rows_total.
    eapply Forall_impl; [exact (media_table_rows _ _ Ht) |].
    intros row Hrow. cbn beta in Hrow. rewrite Hrow. reflexivity. }
  split.
  - intros t Ht. split; [now apply (media_table_rows text) | eauto].
  - unfold nist_elemental_media, bind, requests_get.
    destruct (http (sent w) _) as [resp |]; [| discriminate].
    destruct (media_table (resp_text resp)) as [t |] eqn:Ht; [| discriminate].
    destruct (Hfmt _ _ Ht) as [l ->]. discriminate.
Qed.

(** ** Failures of the scrapers *)

Lemma format_row_none (widths : list nat) (row : list string) :
  format_row widths row = None <-> (length row < length widths)%nat.
Proof.
  split.
  - intros H. destruct (Nat.lt_ge_cases (length row) (length widths))
      as [Hlt | Hge]; [exact Hlt |].
    destruct (format_row_total widths row Hge) as [line Hline].
    congruence.
  - intros Hlt. destruct (format_row widths row) as [line |] eqn:E;
      [| reflexivity].
    apply format_row_enough in E. lia.
Qed.

Lemma format_rows_none (widths : list nat) (t : list (list string)) :
  format_rows widths t = None
  <-> Exists (fun row => (length row < length widths)%nat) t.
Proof.
  induction t as [| row t IH]; cbn [format_rows].
  - split; [discriminate | intros H; inversion H].
  - destruct (format_row widths row) as [line |] eqn:E.
    + destruct (format_rows widths t) as [l |].
      * split; [discriminate |]. intros H. inversion H as [? ? Hrow | ? ? Ht].
        -- apply format_row_none in Hrow. congruence.
        -- apply IH in Ht. discriminate Ht.
      * split; [| reflexivity]. intros _. apply Exists_cons_tl.
        now apply IH.
    + split; [| reflexivity]. intros _. apply Exists_cons_hd.
      now apply format_row_none.
Qed.

(** X22. Once the page of material constants is served and holds a
    table, [nist_material_constants] raises [IndexError] exactly when
    some row has fewer than six cells left after the placeholders were
    dropped. *)
Theorem material_constants_short_row
    (http : list request -> request -> option response) (w : world)
    (resp : response) (t : list (list string)) :
  http (sent w) (plain_get materials_url) = Some resp ->
  material_table (resp_text resp) = Some t ->
  fst (nist_material_constants http w) = Raise IndexError
  <-> Exists (fun row => (length row < 6)%nat) t.
Proof.
  intros Hresp Ht. unfold nist_material_constants, bind, requests_get.
  rewrite Hresp, Ht.
  change 6%nat with (length material_widths).
  rewrite <- format_rows_none.
  destruct (format_rows material_widths t); cbn [fst raise ret];
    split; intros H; try discriminate H; reflexivity.
Qed.

Lemma material_constants_short_row_witness :
  fst (nist_material_constants (always 200 short_row_page) empty_world)
  = Raise IndexError
  <-> Exists (fun row => (length row < 6)%nat)
        (material_header ++ [["1"; "H"; "0.5"; "19.2"; "8.4e-5"]]).
Proof.
  apply (material_constants_short_row (always 200 short_row_page)
           empty_world (page short_row_page)).
  - reflexivity.
  - vm_compute. reflexivity.
Defined.

Example short_row_raises :
  nist_material_constants (always 200 short_row_page) empty_world
  = (Raise IndexError, {| fs := ∅; sent := [plain_get materials_url] |}).
Proof. vm_compute. reflexivity. Qed.

(** X23. The cells of a row beyond the last column are ignored: a row
    formats as its first cells do, one per column. *)
Theorem format_row_ignores_extra_cells (widths : list nat)
    (row extra : list string) :
  length row = length widths ->
  format_row widths (row ++ extra) = format_row widths row.
Proof.
  revert row. induction widths as [| w ws IH]; intros row Hlen;
    [reflexivity |].
  destruct row as [| c row]; [discriminate Hlen |].
  cbn [app format_row]. rewrite IH; [reflexivity |].
  simpl in Hlen. lia.
Qed.

Lemma format_row_ignores_extra_cells_witness :
  format_row media_widths (["1"; "2"; "3"] ++ ["4"; "5"])
  = format_row media_widths ["1"; "2"; "3"].
Proof.
  apply (format_row_ignores_extra_cells media_widths ["1"; "2"; "3"]
           ["4"; "5"]).
  reflexivity.
Defined.

(** A pattern that begins with a literal finds nothing in a text that
    does not contain the literal. *)
Lemma search_from_literal (lit : string) (rest : regex) (s : chars) :
  is_substring (list_ascii_of_string lit) s = false ->
  search_from (Seq (Lits lit) rest) s = None
  /\ search_from (Seq (NoCap (Lits lit)) rest) s = None.
Proof.
  induction s as [| a s IH]; intros H; cbn [is_substring] in H;
    apply orb_false_iff in H as [Hs Hrest].
  - cbn [search_from]. unfold match_at. cbn [matches].
    rewrite matches_lits, Hs. cbn [flat_map]. split; reflexivity.
  - destruct (IH Hrest) as [IH1 IH2].
    cbn [search_from]. unfold match_at. cbn [matches].
    rewrite matches_lits, Hs. cbn [flat_map]. split; assumption.
Qed.

(** X24. When the page of an element is served but has no [<PRE>]
    anywhere, [nist_elemental_media] raises [AttributeError]. *)
Theorem elemental_media_without_pre
    (http : list request -> request -> option response) (z : nat)
    (w : world) (resp : response) :
  http (sent w) (plain_get (base_url z)) = Some resp ->
  is_substring (list_ascii_of_string "<PRE>")
    (list_ascii_of_string (resp_text resp)) = false ->
  nist_elemental_media http z w
  = (Raise AttributeError,
     {| fs := fs w; sent := sent w ++ [plain_get (base_url z)] |}).
Proof.
  intros Hresp Hpre. unfold nist_elemental_media, bind, requests_get.
  rewrite Hresp. unfold media_table, re_search, pre_re.
  now rewrite (proj2 (search_from_literal "<PRE>" _ _ Hpre)).
Qed.

(** X25. When the page of material constants is served and, once its
    line ends are removed, has no [<TABLE] anywhere,
    [nist_material_constants] raises [AttributeError]. *)
Theorem material_constants_without_table
    (http : list request -> request -> option response) (w : world)
    (resp : response) :
  http (sent w) (plain_get materials_url) = Some resp ->
  is_substring (list_ascii_of_string "<TABLE")
    (list_ascii_of_string
       (replace (String carriage_return (String newline "")) ""
          (resp_text resp))) = false ->
  nist_material_constants http w
  = (Raise AttributeError,
     {| fs := fs w; sent := sent w ++ [plain_get materials_url] |}).
Proof.
  intros Hresp Htable. unfold nist_material_constants, bind, requests_get.
  rewrite Hresp. unfold material_table, re_search, table_re.
  now rewrite (proj1 (search_from_literal "<TABLE" _ _ Htable)).
Qed.

Lemma elemental_media_without_pre_witness :
  nist_elemental_media (always 200 "<html>Not Found</html>") 1 empty_world
  = (Raise AttributeError, {| fs := ∅; sent := [plain_get (base_url 1)] |}).
Proof.
  apply (elemental_media_without_pre (always 200 "<html>Not Found</html>")
           1 empty_world (page "<html>Not Found</html>")); reflexivity.
Defined.

Lemma material_constants_without_table_witness :
  nist_material_constants (always 200 "<html>Not Found</html>") empty_world
  = (Raise AttributeError, {| fs := ∅; sent := [plain_get materials_url] |}).
Proof.
  apply (material_constants_without_table
           (always 200 "<html>Not Found</html>") empty_world
           (page "<html>Not Found</html>")); reflexivity.
Defined.

(** ** Digests *)

Lemma be_bytes_length (n : nat) (z : Z) : length (Sha1.be_bytes n z) = n.
Proof. induction n as [| n IH]; simpl; [reflexivity | now rewrite IH]. Qed.

Lemma digest_length (msg : list byte) : length (Sha1.digest msg) = 20%nat.
Proof.
  unfold Sha1.digest.
  destruct (Sha1.blocks _ _ _) as [[[[h0 h1] h2] h3] h4].
  rewrite !length_app, !be_bytes_length. reflexivity.
Qed.

Lemma hex_length (bs : list byte) :
  String.length (Sha1.hex bs) = (2 * length bs)%nat.
Proof.
  induction bs as [| b bs IH]; [reflexivity |].
  cbn [Sha1.hex String.length length]. rewrite IH. lia.
Qed.

Lemma hexdigest_length (msg : list byte) :
  String.length (Sha1.hexdigest msg) = 40%nat.
Proof. unfold Sha1.hexdigest. now rewrite hex_length, digest_length. Qed.

(** X26. A checksum that is not forty characters long never verifies:
    with such a checksum [download_with_check] runs the download on every
    file, whatever it holds. *)
Theorem short_checksum_always_downloads
    (http : list request -> request -> option response)
    (url checksum file : string) (w : world) (c : list byte) :
  String.length checksum <> 40%nat ->
  fs w !! file = Some (File c) ->
  verify_file file checksum w = (Ok false, w)
  /\ download_with_check http url checksum file w
     = download_file http url file w.
Proof.
  intros Hlen Hc.
  assert (Hne : String.eqb (Sha1.hexdigest c) checksum = false).
  { apply String.eqb_neq. intros E. apply Hlen. rewrite <- E.
    apply hexdigest_length. }
  unfold download_with_check, verify_file, bind, read_file.
  rewrite Hc. unfold ret. rewrite Hne. split; reflexivity.
Qed.

Lemma short_checksum_always_downloads_witness :
  verify_file "f" "a9993e36" (one_file "f" (bytes "abc"))
  = (Ok false, one_file "f" (bytes "abc"))
  /\ download_with_check no_network "u" "a9993e36" "f"
       (one_file "f" (bytes "abc"))
     = download_file no_network "u" "f" (one_file "f" (bytes "abc")).
Proof.
  apply (short_checksum_always_downloads no_network "u" "a9993e36" "f"
           (one_file "f" (bytes "abc")) (bytes "abc")).
  - vm_compute. discriminate.
  - apply lookup_singleton_eq.
Defined.

(** ** The fetcher on paths it cannot open, and on fresh paths *)

Ltac differ := apply String.eqb_neq; vm_compute; reflexivity.

Section FetcherEdges.

Variable http : list request -> request -> option response.


(** X28. On a free path in a directory that exists, [download_file]
    asks for the bytes from position 0 on, and when the answer has status
    200 or 206 and the stream is not cut, the new file holds exactly the
    body. *)
Theorem download_file_fresh (url path : string) (w : world)
    (resp : response) :
  fs w !! path = None ->
  is_dir (fs w) (dirname path) = true ->
  http (sent w) (range_get url 0) = Some resp ->
  accepted resp = true ->
  resp_cut resp = None ->
  download_file http url path w
  = (Ok tt,
     {| fs := <[path := File (resp_content resp)]> (fs w);
        sent := sent w ++ [range_get url 0] |}).
Proof.
  intros Hnone Hparent Hresp Ha Hcut. unfold download_file.
  assert (Hopen : open_append path w
                  = (Ok O, set_fs w (<[path := File []]> (fs w)))).
  { unfold open_append. now rewrite Hnone, Hparent. }
  rewrite (bind_step _ _ _ _ _ Hopen). fold (range_get url 0).
  unfold bind, requests_get. cbn [sent set_fs fs]. rewrite Hresp.
  fold (accepted resp). rewrite Ha. unfold write_stream. rewrite Hcut.
  rewrite (for_each_write path _ _ []); [| cbn [fs]; apply lookup_insert_eq].
  f_equal. apply world_eq; cbn [fs sent set_fs]; [| reflexivity].
  rewrite insert_insert_eq, concat_iter_content by lia. reflexivity.
Qed.

Lemma download_with_check_refused (url checksum file : string) (w : world)
    (c : list byte) :
  refusing http ->
  fs w !! file = Some (File c) ->
  exists l,
    download_with_check http url checksum file w
    = (Ok tt, {| fs := fs w; sent := sent w ++ l |}).
Proof.
  intros Href Hc.
  destruct (String.eqb_spec (Sha1.hexdigest c) checksum) as [Heq | Hne].
  - exists []. unfold download_with_check, verify_file, bind, read_file.
    rewrite Hc. unfold ret. rewrite Heq, String.eqb_refl. cbn [negb].
    f_equal. apply world_eq; cbn [fs sent]; [reflexivity |].
    now rewrite app_nil_r.
  - destruct (Href (sent w) (range_get url (length c))) as (resp & Hr & Ha).
    exists [range_get url (length c)].
    rewrite (download_with_check_runs_download http _ _ _ _ c Hc Hne).
    now rewrite (download_file_answered http _ _ _ c resp Hc Hr), Ha.
Qed.

End FetcherEdges.

Section AssemblerRuns.

Variable http : list request -> request -> option response.
Variable unzip : list byte -> option (gmap string (list byte)).

Lemma extract_onto (m : gmap string node) (log : list request)
    (path zip_file output_file : string) (bs : list byte)
    (z : gmap string (list byte)) (member : list byte) :
  m !! zip_file = Some (File bs) ->
  unzip bs = Some z ->
  z !! path = Some member ->
  output_file <> zip_file ->
  m !! output_file <> Some Dir ->
  is_dir m (dirname output_file) = true ->
  extract_file_from_zip unzip path zip_file output_file
    {| fs := m; sent := log |}
  = (Ok tt, {| fs := <[output_file := File member]> m; sent := log |}).
Proof.
  intros Hzip Hun Hmem Hne Hnodir Hparent.
  rewrite (extract_run unzip path zip_file output_file _ bs z member);
    try assumption; [reflexivity |]. cbn [fs].
  destruct (m !! output_file) as [[c |] |]; [left; eauto | | right; auto].
  now contradiction Hnodir.
Qed.

(** X29. A run of [icrp107] that completes without a download. With
    both archives on disk, each holding its members, the directory
    [icrp107] in place, no directory where an output goes, and a server
    that answers no request with 200 or 206, [icrp107] returns normally:
    the archives are used as they are, verified or not, and the outputs
    are the members, the index from the corrigenda. *)
Theorem icrp107_completes (w : world) (base corr : list byte)
    (zbase zcorr : gmap string (list byte))
    (ndx0 rad bet nsf ack ndx : list byte) :
  refusing http ->
  fs w !! data_file_name = Some (File base) ->
  unzip base = Some zbase ->
  fs w !! corr_file_name = Some (File corr) ->
  unzip corr = Some zcorr ->
  zbase !! (base_path +:+ "ICRP-07.NDX") = Some ndx0 ->
  zbase !! (base_path +:+ "ICRP-07.RAD") = Some rad ->
  zbase !! (base_path +:+ "ICRP-07.BET") = Some bet ->
  zbase !! (base_path +:+ "ICRP-07.NSF") = Some nsf ->
  zbase !! (base_path +:+ "ICRP-07.ACK") = Some ack ->
  zcorr !! corr_member = Some ndx ->
  fs w !! "icrp107" = Some Dir ->
  Forall (fun file => fs w !! (base_output_path +:+ file) <> Some Dir)
         icrp_files ->
  exists l,
    icrp107 http unzip w
    = (Ok tt,
       {| fs := <["icrp107/ICRP-07.NDX" := File ndx]>
                  (<["icrp107/ICRP-07.ACK" := File ack]>
                     (<["icrp107/ICRP-07.NSF" := File nsf]>
                        (<["icrp107/ICRP-07.BET" := File bet]>
                           (<["icrp107/ICRP-07.RAD" := File rad]>
                              (<["icrp107/ICRP-07.NDX" := File ndx0]>
                                 (fs w))))));
          sent := sent w ++ l |}).
Proof.
  intros Href Hbase Hub Hcorr Huc M1 M2 M3 M4 M5 Mc Hdir Hout.
  unfold icrp_files in Hout.
  inversion_clear Hout as [| ? ? O1 Hout1].
  inversion_clear Hout1 as [| ? ? O2 Hout2].
  inversion_clear Hout2 as [| ? ? O3 Hout3].
  inversion_clear Hout3 as [| ? ? O4 Hout4].
  inversion_clear Hout4 as [| ? ? O5 _].
  assert (Hparent : is_dir (fs w) "icrp107" = true).
  { unfold is_dir. now rewrite Hdir. }
  destruct (download_with_check_refused http data_url data_checksum
              data_file_name w base Href Hbase) as [l1 D1].
  unfold icrp107, icrp_files. cbn [for_each].
  rewrite (bind_step _ _ _ _ _ D1).
  set (m6 := <["icrp107/ICRP-07.ACK" := File ack]>
               (<["icrp107/ICRP-07.NSF" := File nsf]>
                  (<["icrp107/ICRP-07.BET" := File bet]>
                     (<["icrp107/ICRP-07.RAD" := File rad]>
                        (<["icrp107/ICRP-07.NDX" := File ndx0]>
                           (fs w)))))).
  assert (E :
    (run extract_file_from_zip unzip (base_path +:+ "ICRP-07.NDX")
           data_file_name (base_output_path +:+ "ICRP-07.NDX") ;;
     run extract_file_from_zip unzip (base_path +:+ "ICRP-07.RAD")
           data_file_name (base_output_path +:+ "ICRP-07.RAD") ;;
     run extract_file_from_zip unzip (base_path +:+ "ICRP-07.BET")
           data_file_name (base_output_path +:+ "ICRP-07.BET") ;;
     run extract_file_from_zip unzip (base_path +:+ "ICRP-07.NSF")
           data_file_name (base_output_path +:+ "ICRP-07.NSF") ;;
     run extract_file_from_zip unzip (base_path +:+ "ICRP-07.ACK")
           data_file_name (base_output_path +:+ "ICRP-07.ACK") ;;
     ret tt) {| fs := fs w; sent := sent w ++ l1 |}
    = (Ok tt, {| fs := m6; sent := sent w ++ l1 |})).
  { subst m6. erewrite bind_step;
      [| apply (extract_onto _ _ _ _ _ base zbase ndx0); try assumption;
         differ].
    erewrite bind_step;
      [| apply (extract_onto _ _ _ _ _ base zbase rad); try assumption;
         rewrite ?is_dir_insert_ne, ?lookup_insert_ne by differ;
         try assumption; differ].
    erewrite bind_step;
      [| apply (extract_onto _ _ _ _ _ base zbase bet); try assumption;
         rewrite ?is_dir_insert_ne, ?lookup_insert_ne by differ;
         try assumption; differ].
    erewrite bind_step;
      [| apply (extract_onto _ _ _ _ _ base zbase nsf); try assumption;
         rewrite ?is_dir_insert_ne, ?lookup_insert_ne by differ;
         try assumption; differ].
    erewrite bind_step;
      [| apply (extract_onto _ _ _ _ _ base zbase ack); try assumption;
         rewrite ?is_dir_insert_ne, ?lookup_insert_ne by differ;
         try assumption; differ].
    reflexivity. }
  rewrite (bind_step _ _ _ _ _ E).
  assert (Hcorr6 : m6 !! corr_file_name = Some (File corr)).
  { subst m6. rewrite !lookup_insert_ne by differ. exact Hcorr. }
  destruct (download_with_check_refused http corr_url corr_checksum
              corr_file_name {| fs := m6; sent := sent w ++ l1 |} corr
              Href Hcorr6) as [l2 D2].
  rewrite (bind_step _ _ _ _ _ D2). cbn [fs sent].
  exists (l1 ++ l2).
  rewrite (extract_onto _ _ _ _ _ corr zcorr ndx); try assumption.
  - now rewrite app_assoc.
  - differ.
  - subst m6. rewrite !lookup_insert_ne, lookup_insert_eq by differ.
    discriminate.
  - subst m6. rewrite !is_dir_insert_ne by differ. exact Hparent.
Qed.

End AssemblerRuns.


Lemma download_file_fresh_witness :
  download_file (always 200 "abc") "u" "f" empty_world
  = (Ok tt,
     {| fs := <["f" := File (bytes "abc")]> (fs empty_world);
        sent := [range_get "u" 0] |}).
Proof.
  apply (download_file_fresh (always 200 "abc") "u" "f" empty_world
           (page "abc")); reflexivity.
Defined.

Lemma refusing_always_416 : refusing (always 416 "").
Proof. intros history r. eexists. split; reflexivity. Defined.

Lemma icrp107_completes_witness :
  exists l,
    icrp107 (always 416 "") sample_unzip sample_world
    = (Ok tt,
       {| fs := <["icrp107/ICRP-07.NDX" := File (bytes "corrected index")]>
                  (<["icrp107/ICRP-07.ACK" := File (bytes "base ICRP-07.ACK")]>
                     (<["icrp107/ICRP-07.NSF"
                        := File (bytes "base ICRP-07.NSF")]>
                        (<["icrp107/ICRP-07.BET"
                           := File (bytes "base ICRP-07.BET")]>
                           (<["icrp107/ICRP-07.RAD"
                              := File (bytes "base ICRP-07.RAD")]>
                              (<["icrp107/ICRP-07.NDX"
                                 := File (bytes "base ICRP-07.NDX")]>
                                 (fs sample_world))))));
          sent := sent sample_world ++ l |}).
Proof.
  apply (icrp107_completes (always 416 "") sample_unzip sample_world
           (bytes "PK base") (bytes "PK corr") sample_base sample_corr).
  - exact refusing_always_416.
  - reflexivity.
  - reflexivity.
  - reflexivity.
  - reflexivity.
  - vm_compute. reflexivity.
  - vm_compute. reflexivity.
  - vm_compute. reflexivity.
  - vm_compute. reflexivity.
  - vm_compute. reflexivity.
  - reflexivity.
  - reflexivity.
  - repeat constructor; vm_compute; discriminate.
Defined.
